(** * ytb-down: the job-tracking core of [app.py]

    A shallow embedding of the Flask back end in [src/app.py]: the job
    record [DownloadProgress], the registry [active_downloads], the
    progress hook, the metadata fetcher, the download worker, the
    submission route and the route table, and with them the polling,
    file, listing, health, metadata and format-listing routes, the sweep
    block and the start-up block.

    Modelling conventions.
    - A Python [dict] is a [gmap string _]; a missing key and a key bound
      to [None] are kept apart ([d !! k = None] against [Some PNone]).
    - Python strings are [string]s of 8-bit characters; [lower] maps the
      ASCII letters only.
    - A Python [float] is an exact rational or one of [inf], [-inf],
      [nan]; rounding is not modelled.
    - The extraction library, the file system and the clock are inputs:
      a call of [ydl.download] is the list of dictionaries it hands to the
      progress hooks followed by its outcome.
    - [print] is a no-op. *)

From Stdlib Require Import Ascii String QArith Lqa.
From stdpp Require Import gmap strings list fin_maps pretty sorting.

#[local] Set Warnings "-clear-no-such-hyp".

Local Open Scope Z_scope.

(** ** Python strings *)

Module PyStr.

(** [needle in hay] *)
Fixpoint contains (needle hay : string) : bool :=
  String.prefix needle hay ||
  match hay with
  | EmptyString => false
  | String _ hay' => contains needle hay'
  end.

Definition lower_ascii (c : ascii) : ascii :=
  let n := nat_of_ascii c in
  if (65 <=? n)%nat && (n <=? 90)%nat then ascii_of_nat (n + 32) else c.

(** [s.lower()] *)
Fixpoint lower (s : string) : string :=
  match s with
  | EmptyString => EmptyString
  | String c s' => String (lower_ascii c) (lower s')
  end.

(** The characters [str.strip()] removes: space, \t, \n, \v, \f, \r and
    the separators \x1c..\x1f. *)
Definition is_space (c : ascii) : bool :=
  let n := nat_of_ascii c in
  (n =? 32)%nat || ((9 <=? n)%nat && (n <=? 13)%nat)
                || ((28 <=? n)%nat && (n <=? 31)%nat).

Fixpoint lstrip (s : string) : string :=
  match s with
  | String c s' => if is_space c then lstrip s' else s
  | EmptyString => EmptyString
  end.

Fixpoint rstrip (s : string) : string :=
  match s with
  | EmptyString => EmptyString
  | String c s' =>
      match rstrip s' with
      | EmptyString => if is_space c then EmptyString else String c EmptyString
      | r => String c r
      end
  end.

(** [s.strip()] *)
Definition strip (s : string) : string := rstrip (lstrip s).

(** [s.replace(old, new)] for a non-empty [old]: non-overlapping
    occurrences, left to right.  [skip] counts the characters of a
    matched occurrence still to be dropped. *)
Fixpoint replace_from (old new : string) (skip : nat) (s : string) : string :=
  match s with
  | EmptyString => EmptyString
  | String c s' =>
      match skip with
      | S k => replace_from old new k s'
      | O =>
          if String.prefix old s
          then new +:+ replace_from old new (String.length old - 1) s'
          else String c (replace_from old new 0 s')
      end
  end.

Definition replace (old new s : string) : string := replace_from old new 0 s.

(** [s.rsplit(sep, 1)] for a one-character [sep]: [Some (l, r)] is the
    two-element list [[l, r]], [None] the one-element list [[s]]. *)
Fixpoint rsplit1 (sep : ascii) (s : string) : option (string * string) :=
  match s with
  | EmptyString => None
  | String c s' =>
      match rsplit1 sep s' with
      | Some (l, r) => Some (String c l, r)
      | None => if decide (c = sep) then Some (EmptyString, s') else None
      end
  end.

(** [s.split(sep)] for a one-character [sep]. *)
Fixpoint split (sep : ascii) (s : string) : list string :=
  match s with
  | EmptyString => [EmptyString]
  | String c s' =>
      if decide (c = sep) then EmptyString :: split sep s'
      else match split sep s' with
           | x :: xs => String c x :: xs
           | [] => [String c EmptyString]
           end
  end.

(** [s[:n]] *)
Definition take (n : nat) (s : string) : string := String.substring 0 n s.

(** [str(n)] for an integer. *)
Definition of_Z (z : Z) : string := pretty z.

End PyStr.

(** [Path(p).name] on a POSIX path: the last component that is neither
    empty nor a single dot, the empty string when there is none. *)
Definition path_name (p : string) : string :=
  List.last (List.filter (fun c => negb (String.eqb c "" || String.eqb c "."))
                         (PyStr.split "/" p)) "".

(** ** Python values *)

Inductive pyfloat :=
| Finite (q : Q)
| PosInf
| NegInf
| NaN.

(** The values the dictionaries of this program hold. *)
Inductive pyval :=
| PNone
| PBool (b : bool)
| PInt (z : Z)
| PStr (s : string).

#[global] Instance pyval_eq_dec : EqDecision pyval.
Proof. solve_decision. Defined.

Abbreviation pydict := (gmap string pyval).

(** Truth value of [if v:]. *)
Definition truthy (v : pyval) : bool :=
  match v with
  | PNone => false
  | PBool b => b
  | PInt z => negb (z =? 0)
  | PStr s => negb (String.eqb s "")
  end.

(** [str(v)] *)
Definition py_str (v : pyval) : string :=
  match v with
  | PNone => "None"
  | PBool b => if b then "True" else "False"
  | PInt z => PyStr.of_Z z
  | PStr s => s
  end.

(** [d.get(k)] and [d.get(k, dflt)] *)
Definition dget (d : pydict) (k : string) : pyval := default PNone (d !! k).
Definition dget_or (d : pydict) (k : string) (dflt : pyval) : pyval :=
  default dflt (d !! k).

(** Exceptions, with the text [str(e)] gives. *)
Inductive exn :=
| KeyError (key : string)
| TypeError (msg : string)
| AttributeError (msg : string)
| DownloadError (msg : string)
| OtherError (msg : string).

Definition exn_str (e : exn) : string :=
  match e with
  | KeyError k => "'" +:+ k +:+ "'"
  | TypeError m | AttributeError m | DownloadError m | OtherError m => m
  end.

(** A computation that returns or raises. *)
Inductive result (A : Type) :=
| Ok (a : A)
| Raise (e : exn).
Arguments Ok {A} a.
Arguments Raise {A} e.

#[global] Instance result_ret : MRet result := fun A a => Ok a.
#[global] Instance result_bind : MBind result := fun A B k r =>
  match r with
  | Ok a => k a
  | Raise e => Raise e
  end.

(** [d[k]] *)
Definition dindex (d : pydict) (k : string) : result pyval :=
  match d !! k with
  | Some v => Ok v
  | None => Raise (KeyError k)
  end.

(** The integer a value stands for in arithmetic ([bool] is a subtype of
    [int] in Python). *)
Definition as_int (v : pyval) : option Z :=
  match v with
  | PInt z => Some z
  | PBool b => Some (if b then 1 else 0)
  | _ => None
  end.

(** [a / b * 100] on the values a dictionary can hold. *)
Definition percent_of (a b : pyval) : result pyfloat :=
  match as_int a, as_int b with
  | Some n, Some t =>
      if t =? 0 then Raise (OtherError "division by zero")
      else Ok (Finite ((inject_Z n / inject_Z t) * 100)%Q)
  | _, _ => Raise (TypeError "unsupported operand type(s) for /")
  end.

(** What the program takes from outside the repository: the builtin
    [float] on strings ([None] is [ValueError]) and werkzeug's
    [secure_filename]. *)
Class Externals := {
  py_float : string -> option pyfloat;
  secure_filename : string -> string
}.

(** ** The job record and the registry *)

Inductive status_t := Starting | Downloading | Processing | Completed | Error.

#[global] Instance status_eq_dec : EqDecision status_t.
Proof. solve_decision. Defined.

(** The string the [status] attribute holds. *)
Definition status_str (s : status_t) : string :=
  match s with
  | Starting => "starting"
  | Downloading => "downloading"
  | Processing => "processing"
  | Completed => "completed"
  | Error => "error"
  end.

(** [class DownloadProgress]; [None] attributes are [None]. *)
Record DownloadProgress := {
  download_id : string;
  status : status_t;
  progress : pyfloat;
  filename : option string;
  error : option string;
  completed_at : option Z;
  file_path : option string
}.

(** [DownloadProgress.__init__] *)
Definition DownloadProgress_init (id : string) : DownloadProgress :=
  {| download_id := id; status := Starting; progress := Finite 0;
     filename := None; error := None; completed_at := None;
     file_path := None |}.

Definition set_status (v : status_t) (j : DownloadProgress) :=
  {| download_id := download_id j; status := v; progress := progress j;
     filename := filename j; error := error j;
     completed_at := completed_at j; file_path := file_path j |}.
Definition set_progress (v : pyfloat) (j : DownloadProgress) :=
  {| download_id := download_id j; status := status j; progress := v;
     filename := filename j; error := error j;
     completed_at := completed_at j; file_path := file_path j |}.
Definition set_filename (v : string) (j : DownloadProgress) :=
  {| download_id := download_id j; status := status j; progress := progress j;
     filename := Some v; error := error j;
     completed_at := completed_at j; file_path := file_path j |}.
Definition set_error (v : string) (j : DownloadProgress) :=
  {| download_id := download_id j; status := status j; progress := progress j;
     filename := filename j; error := Some v;
     completed_at := completed_at j; file_path := file_path j |}.
Definition set_completed_at (v : Z) (j : DownloadProgress) :=
  {| download_id := download_id j; status := status j; progress := progress j;
     filename := filename j; error := error j;
     completed_at := Some v; file_path := file_path j |}.
Definition set_file_path (v : string) (j : DownloadProgress) :=
  {| download_id := download_id j; status := status j; progress := progress j;
     filename := filename j; error := error j;
     completed_at := completed_at j; file_path := Some v |}.

(** [active_downloads] *)
Abbreviation registry := (gmap string DownloadProgress).

Definition MAX_FILE_AGE_HOURS : Z := 24.
Definition MAX_CONCURRENT_DOWNLOADS : Z := 3.

(** ** [progress_hook] *)

(** ['total_bytes' in d and d['total_bytes']] *)
Definition total_known (d : pydict) : bool :=
  bool_decide (is_Some (d !! "total_bytes")) && truthy (dget d "total_bytes").

Section Hook.
Context `{Externals}.

(** The body of [progress_hook] on the record it found.  The record is
    mutated in place, so the attributes assigned before an exception
    stay assigned: the result is the record and the exception, if any. *)
Definition hook_body (d : pydict) (j : DownloadProgress)
  : DownloadProgress * option exn :=
  match dindex d "status" with
  | Raise e => (j, Some e)
  | Ok st =>
      if decide (st = PStr "downloading") then
        if total_known d then
          match (a ← dindex d "downloaded_bytes";
                 b ← dindex d "total_bytes";
                 percent_of a b) with
          | Ok p => (set_status Downloading (set_progress p j), None)
          | Raise e => (j, Some e)
          end
        else if bool_decide (is_Some (d !! "_percent_str")) then
          match dget d "_percent_str" with
          | PStr s =>
              let percent_str := PyStr.replace "%" "" (PyStr.strip s) in
              match py_float percent_str with
              | Some p => (set_status Downloading (set_progress p j), None)
              | None => (set_status Downloading j, None)
              end
          | _ => (j, Some (AttributeError "object has no attribute 'strip'"))
          end
        else (set_status Downloading j, None)
      else if decide (st = PStr "finished") then
        let j' := set_progress (Finite 90) (set_status Processing j) in
        match dindex d "filename" with
        | Ok (PStr f) => (set_filename (path_name f) j', None)
        | Ok _ => (j', Some (TypeError "expected str, bytes or os.PathLike object"))
        | Raise e => (j', Some e)
        end
      else if decide (st = PStr "error") then
        (set_error (py_str (dget_or d "error" (PStr "Unknown error")))
                   (set_status Error j), None)
      else (j, None)
  end.

(** [progress_hook(d, download_id)] on the registry. *)
Definition progress_hook (d : pydict) (id : string) (reg : registry)
  : registry * option exn :=
  match reg !! id with
  | None => (reg, None)
  | Some j => let '(j', e) := hook_body d j in (<[id := j']> reg, e)
  end.

End Hook.

(** ** [get_video_info] *)

(** The dictionary [extract_info] returns: its scalar entries and, when
    the key is present, the list under ['formats']. *)
Record info_dict := {
  info_fields : pydict;
  info_formats : option (list pydict)
}.

(** One entry of the ['formats'] list of the answer. *)
Record format_descr := {
  fd_format_id : pyval;
  fd_ext : pyval;
  fd_quality : pyval;
  fd_filesize : pyval;
  fd_vcodec : pyval;
  fd_acodec : pyval;
  fd_width : pyval;
  fd_height : pyval
}.

(** The dictionary [get_video_info] returns. *)
Record video_info := {
  vi_title : pyval;
  vi_duration : pyval;
  vi_view_count : pyval;
  vi_uploader : pyval;
  vi_upload_date : pyval;
  vi_description : string;
  vi_thumbnail : pyval;
  vi_formats : list format_descr;
  vi_webpage_url : pyval
}.

(** [f.get('vcodec') != 'none' or f.get('acodec') != 'none'] *)
Definition has_codec (f : pydict) : bool :=
  negb (bool_decide (dget f "vcodec" = PStr "none"))
  || negb (bool_decide (dget f "acodec" = PStr "none")).

Definition format_entry (f : pydict) : format_descr :=
  {| fd_format_id := dget f "format_id";
     fd_ext := dget f "ext";
     fd_quality := dget_or f "format_note" (dget_or f "quality" (PStr "unknown"));
     fd_filesize := dget f "filesize";
     fd_vcodec := dget f "vcodec";
     fd_acodec := dget f "acodec";
     fd_width := dget f "width";
     fd_height := dget f "height" |}.

(** The loop that fills [formats]. *)
Definition collect_formats (info : info_dict) : list format_descr :=
  match info_formats info with
  | None => []
  | Some fs => format_entry <$> List.filter has_codec fs
  end.

(** [info.get('description', '')[:200] + '...' if info.get('description') else ''] *)
Definition describe (info : pydict) : result string :=
  if truthy (dget info "description") then
    match dget_or info "description" (PStr "") with
    | PStr s => Ok (PyStr.take 200 s +:+ "...")
    | _ => Raise (TypeError "object is not subscriptable")
    end
  else Ok "".

(** [get_video_info(url)], given what [ydl.extract_info(url,
    download=False)] returns or raises. *)
Definition get_video_info (url : pyval) (extracted : result info_dict)
  : result video_info :=
  let body :=
    info ← extracted;
    let formats := collect_formats info in
    description ← describe (info_fields info);
    mret {| vi_title := dget_or (info_fields info) "title" (PStr "Unknown Title");
            vi_duration := dget (info_fields info) "duration";
            vi_view_count := dget (info_fields info) "view_count";
            vi_uploader := dget (info_fields info) "uploader";
            vi_upload_date := dget (info_fields info) "upload_date";
            vi_description := description;
            vi_thumbnail := dget (info_fields info) "thumbnail";
            vi_formats := List.firstn 20 formats;
            vi_webpage_url := dget_or (info_fields info) "webpage_url" url |} in
  match body with
  | Ok v => Ok v
  | Raise e => Raise (OtherError ("Failed to extract video info: " +:+ exn_str e))
  end.

(** ** [download_video]: the options bundle *)

(** The entries of [ydl_opts] that vary; the constant ones ([referer],
    the retry counts, the sleep intervals, ...) are left out. *)
Record ydl_opts := {
  o_outtmpl : string;
  o_user_agent : string;
  o_format : pyval;
  o_postprocessors : option (string * string * string);
  o_merge_output_format : option string;
  o_extractor_args : option (string * list (string * list string))
}.

Definition TEMP_DIR : string := "temp".
Definition DOWNLOAD_DIR : string := "downloads".

(** The format string of each quality tier, written as the source writes
    it: adjacent string literals, concatenated. *)
Definition format_best : string :=
  "bestvideo[height>=2160]+bestaudio[ext=m4a]/bestvideo[height>=2160]+bestaudio/"
  +:+ "bestvideo[height>=1440]+bestaudio[ext=m4a]/bestvideo[height>=1440]+bestaudio/"
  +:+ "bestvideo[height>=1080]+bestaudio[ext=m4a]/bestvideo[height>=1080]+bestaudio/"
  +:+ "bestvideo[height>=720]+bestaudio[ext=m4a]/bestvideo[height>=720]+bestaudio/"
  +:+ "best[height>=1080]/best[height>=720]/best".

Definition format_audio : string :=
  "bestaudio[ext=m4a][abr>=192]/bestaudio[abr>=192]/"
  +:+ "bestaudio[ext=m4a]/bestaudio/best[height<=480]".

Definition format_1080p : string :=
  "bestvideo[height<=1080][height>=1080]+bestaudio[ext=m4a]/"
  +:+ "bestvideo[height<=1080][height>=1080]+bestaudio/"
  +:+ "best[height<=1080][height>=1080]/"
  +:+ "bestvideo[height<=1080]+bestaudio[ext=m4a]/"
  +:+ "bestvideo[height<=1080]+bestaudio/"
  +:+ "best[height<=1080]/best".

Definition format_720p : string :=
  "bestvideo[height<=720][height>=720]+bestaudio[ext=m4a]/"
  +:+ "bestvideo[height<=720][height>=720]+bestaudio/"
  +:+ "best[height<=720][height>=720]/"
  +:+ "bestvideo[height<=720]+bestaudio[ext=m4a]/"
  +:+ "bestvideo[height<=720]+bestaudio/"
  +:+ "best[height<=720]/best".

Definition initial_user_agent : string :=
  "Mozilla/5.0 (Windows NT 10.0; Win64; x64) AppleWebKit/537.36 (KHTML, like Gecko) Chrome/91.0.4472.124 Safari/537.36".

Definition retry_user_agent : string :=
  "Mozilla/5.0 (X11; Linux x86_64) AppleWebKit/537.36 (KHTML, like Gecko) Chrome/120.0.0.0 Safari/537.36".

(** [ydl_opts] as it stands when the first [YoutubeDL] is built. *)
Definition build_opts (quality : pyval) (id : string) (custom_format : pyval)
  : ydl_opts :=
  let base :=
    {| o_outtmpl := TEMP_DIR +:+ "/" +:+ id +:+ "_%(title)s.%(ext)s";
       o_user_agent := initial_user_agent;
       o_format := PNone;
       o_postprocessors := None;
       o_merge_output_format := None;
       o_extractor_args := None |} in
  let with_format fmt pp :=
    {| o_outtmpl := o_outtmpl base; o_user_agent := o_user_agent base;
       o_format := fmt; o_postprocessors := pp;
       o_merge_output_format := Some "mp4";
       o_extractor_args := None |} in
  if truthy custom_format then with_format custom_format None
  else if decide (quality = PStr "best") then with_format (PStr format_best) None
  else if decide (quality = PStr "audio") then
    with_format (PStr format_audio) (Some ("FFmpegExtractAudio", "mp3", "320"))
  else if decide (quality = PStr "1080p") then with_format (PStr format_1080p) None
  else if decide (quality = PStr "720p") then with_format (PStr format_720p) None
  else with_format (PStr "best") None.

(** [ydl_opts.update({...})] before the retry. *)
Definition retry_opts (o : ydl_opts) : ydl_opts :=
  let original_format := o_format o in
  {| o_outtmpl := o_outtmpl o;
     o_user_agent := retry_user_agent;
     o_format := original_format;
     o_postprocessors := o_postprocessors o;
     o_merge_output_format := o_merge_output_format o;
     o_extractor_args :=
       Some ("youtube", [("skip", ["dash"]); ("player_skip", ["configs"])]) |}.

(** The alternatives of a format string in the order yt-dlp tries them. *)
Definition format_chain (fmt : string) : list string := PyStr.split "/" fmt.

(** ** [download_video]: the worker *)

(** One call of [YoutubeDL.download]: the dictionaries the library hands
    to the progress hooks, in order, and then how the call ends ([None]:
    it returns).  An exception raised by a hook ends the call and reaches
    the caller as it is. *)
Record lib_call := {
  lc_events : list pydict;
  lc_outcome : option exn
}.

(** The surroundings of one worker run. *)
Record world := {
  (** [YoutubeDL(opts).download([url])] *)
  ydl_download : ydl_opts -> pyval -> lib_call;
  (** the names in [TEMP_DIR], in the order [glob] lists them, once the
      library is done *)
  temp_after : list string;
  (** how [shutil.move] ends *)
  move_error : option exn;
  (** the temp files whose [unlink] raises *)
  unlink_fails : string -> bool;
  (** [datetime.now()], in seconds *)
  now : Z
}.

(** [TEMP_DIR.glob(f"{download_id}_*")], as names. *)
Definition glob_prefix (id : string) (names : list string) : list string :=
  List.filter (String.prefix (id +:+ "_")) names.

(** The first five [if]/[elif] of the handler: the text stored in
    [error]. *)
Definition friendly_message (error_msg : string) : string :=
  if PyStr.contains "403" error_msg || PyStr.contains "Forbidden" error_msg then
    "YouTube blocked the download (403 Forbidden). This video may be restricted or require sign-in. Try a different video or update yt-dlp."
  else if PyStr.contains "404" error_msg
          || PyStr.contains "not found" (PyStr.lower error_msg) then
    "Video not found (404). The video may be private, deleted, or the URL is incorrect."
  else if PyStr.contains "copyright" (PyStr.lower error_msg) then
    "Video is protected by copyright and cannot be downloaded."
  else if PyStr.contains "private" (PyStr.lower error_msg) then
    "This video is private and cannot be downloaded."
  else if PyStr.contains "unavailable" (PyStr.lower error_msg) then
    "Video is unavailable in your region or has been removed."
  else error_msg.

(** The name the loop tries after [final_filename]. *)
Definition next_name (final_filename : string) (counter : Z) : string :=
  match PyStr.rsplit1 "." final_filename with
  | Some (stem, ext) => stem +:+ "_" +:+ PyStr.of_Z counter +:+ "." +:+ ext
  | None => final_filename +:+ "_" +:+ PyStr.of_Z counter
  end.

(** [while final_path.exists(): ...], with the names that exist under
    [DOWNLOAD_DIR]; [None] when [fuel] iterations were not enough. *)
Fixpoint unique_loop (fuel : nat) (existing : gset string)
    (final_filename : string) (counter : Z) : option string :=
  match fuel with
  | O => None
  | S fuel' =>
      if bool_decide (final_filename ∈ existing)
      then unique_loop fuel' existing (next_name final_filename counter) (counter + 1)
      else Some final_filename
  end.

(** The loop started at [counter = 1]; [unique_loop_terminates] shows the
    fuel given here is always enough. *)
Definition unique_filename (existing : gset string) (final_filename : string)
  : string :=
  default final_filename
    (unique_loop (S (size existing)) existing final_filename 1).

(** What a worker run leaves behind. *)
Record worker_end := {
  (** the registry after each hook call and after the final update *)
  w_trace : list registry;
  w_reg : registry;
  w_temp : list string;
  w_downloads : gset string;
  (** an exception that left the thread *)
  w_escaped : option exn
}.

Section Worker.
Context `{Externals}.

(** The hook calls of one library call: the registries after each call
    and the exception of the hook that raised, if one did. *)
Fixpoint run_hooks (evs : list pydict) (id : string) (reg : registry)
  : list registry * option exn :=
  match evs with
  | [] => ([], None)
  | d :: evs' =>
      let '(reg', e) := progress_hook d id reg in
      match e with
      | Some _ => ([reg'], e)
      | None => let '(tr, e') := run_hooks evs' id reg' in (reg' :: tr, e')
      end
  end.

(** [ydl.download([url])] with the hook installed. *)
Definition ydl_run (c : lib_call) (id : string) (reg : registry)
  : list registry * registry * option exn :=
  let '(tr, e) := run_hooks (lc_events c) id reg in
  (tr, List.last tr reg, if e is Some _ then e else lc_outcome c).

(** The [with yt_dlp.YoutubeDL(ydl_opts) as ydl:] block. *)
Definition download_phase (W : world) (opts : ydl_opts) (url : pyval)
    (id : string) (reg : registry)
  : list registry * registry * option exn :=
  let '(tr1, reg1, r1) := ydl_run (ydl_download W opts url) id reg in
  match r1 with
  | Some (DownloadError m) =>
      if PyStr.contains "403" m || PyStr.contains "Forbidden" m then
        let '(tr2, reg2, r2) :=
          ydl_run (ydl_download W (retry_opts opts) url) id reg1 in
        (tr1 ++ tr2, reg2, r2)
      else (tr1, reg1, r1)
  | _ => (tr1, reg1, r1)
  end.

(** From [downloaded_files = ...] to [shutil.move]: the final file
    name, and the two directories after the move. *)
Definition relocate (W : world) (id : string) (existing : gset string)
  : result (string * list string * gset string) :=
  match glob_prefix id (temp_after W) with
  | [] => Raise (OtherError
      "Downloaded file not found. Check if the video is available and not private/restricted.")
  | downloaded_file :: _ =>
      let final_filename :=
        unique_filename existing
          (secure_filename (PyStr.replace (id +:+ "_") "" downloaded_file)) in
      match move_error W with
      | Some e => Raise e
      | None =>
          Ok (final_filename,
              List.filter (fun n => negb (String.eqb n downloaded_file)) (temp_after W),
              {[ final_filename ]} ∪ existing)
      end
  end.

(** The five assignments under [# Update progress].  [file_path] holds
    [DOWNLOAD_DIR / final_filename]; the model keeps the name. *)
Definition mark_completed (final_filename : string) (t : Z)
    (j : DownloadProgress) : DownloadProgress :=
  set_completed_at t
    (set_file_path final_filename
      (set_filename final_filename
        (set_progress (Finite 100) (set_status Completed j)))).

(** The two assignments of the handler. *)
Definition mark_error (error_msg : string) (j : DownloadProgress)
  : DownloadProgress :=
  set_error error_msg (set_status Error j).

(** The cleanup loop of the handler: a temp file of the job survives
    only when its [unlink] raised. *)
Definition cleanup_partial (W : world) (id : string) (names : list string)
  : list string :=
  List.filter (fun n => negb (String.prefix (id +:+ "_") n) || unlink_fails W n)
              names.

(** The [try] block: the hook trace, the registry it leaves, and its
    result. *)
Definition try_block (W : world) (url quality : pyval) (id : string)
    (custom_format : pyval) (reg : registry) (existing : gset string)
  : list registry * registry * result (string * list string * gset string) :=
  let opts := build_opts quality id custom_format in
  let '(tr, reg1, r) := download_phase W opts url id reg in
  (tr, reg1,
   match r with
   | Some e => Raise e
   | None => relocate W id existing
   end).

(** [download_video(url, quality, download_id, custom_format)] on the
    registry and the names that exist under [DOWNLOAD_DIR]. *)
Definition download_video (W : world) (url quality : pyval) (id : string)
    (custom_format : pyval) (reg : registry) (existing : gset string)
  : worker_end :=
  match reg !! id with
  | None =>
      (* [active_downloads[download_id]] raises inside the [try]; the
         handler then reads the unbound [progress_obj] *)
      {| w_trace := []; w_reg := reg; w_temp := temp_after W;
         w_downloads := existing;
         w_escaped := Some (OtherError
           "cannot access local variable 'progress_obj' where it is not associated with a value") |}
  | Some _ =>
      let '(tr, reg1, r) := try_block W url quality id custom_format reg existing in
      match r with
      | Ok (final_filename, temp', downloads') =>
          let reg2 := alter (mark_completed final_filename (now W)) id reg1 in
          {| w_trace := tr ++ [reg2]; w_reg := reg2; w_temp := temp';
             w_downloads := downloads'; w_escaped := None |}
      | Raise e =>
          let reg2 := alter (mark_error (friendly_message (exn_str e))) id reg1 in
          {| w_trace := tr ++ [reg2]; w_reg := reg2;
             w_temp := cleanup_partial W id (temp_after W);
             w_downloads := existing; w_escaped := None |}
      end
  end.

End Worker.

(** ** The routes *)

(** [jsonify(body), code] *)
Inductive response := Json (code : Z) (body : list (string * pyval)).

Definition resp_code (r : response) : Z := let 'Json c _ := r in c.

(** [d.status in ['starting', 'downloading', 'processing']] *)
Definition is_active (s : status_t) : bool :=
  match s with
  | Starting | Downloading | Processing => true
  | Completed | Error => false
  end.

(** [len([d for d in active_downloads.values() if ...])] *)
Definition active_count (reg : registry) : Z :=
  Z.of_nat (length (List.filter (fun kv => is_active (status kv.2))
                                (map_to_list reg))).

(** The arguments of the thread [start_download] launches. *)
Record thread_args := {
  ta_url : pyval;
  ta_quality : pyval;
  ta_download_id : string;
  ta_custom_format : pyval
}.

(** [start_download()] for the body [request.get_json()] gives ([None]
    when there is none) and the identifier [uuid.uuid4()] draws: the
    answer, the registry afterwards and the thread started, if any. *)
Definition start_download (data : option pydict) (fresh_id : string)
    (reg : registry) : response * registry * option thread_args :=
  match data with
  | None =>
      (Json 500 [("error", PStr "'NoneType' object has no attribute 'get'")],
       reg, None)
  | Some data =>
      let url := dget data "url" in
      let quality := dget_or data "quality" (PStr "best") in
      let custom_format := dget data "custom_format" in
      if negb (truthy url) then
        (Json 400 [("error", PStr "URL is required")], reg, None)
      else if MAX_CONCURRENT_DOWNLOADS <=? active_count reg then
        (Json 429 [("error", PStr "Too many concurrent downloads. Please wait.")],
         reg, None)
      else
        (Json 200 [("success", PBool true);
                   ("download_id", PStr fresh_id);
                   ("message", PStr "Download started")],
         <[fresh_id := DownloadProgress_init fresh_id]> reg,
         Some {| ta_url := url; ta_quality := quality;
                 ta_download_id := fresh_id;
                 ta_custom_format := custom_format |})
  end.

(** A submission is admitted when a record is created for it and its
    worker is started. *)
Definition admitted (fresh_id : string) (reg : registry)
    (r : response * registry * option thread_args) : Prop :=
  r.1.2 = <[fresh_id := DownloadProgress_init fresh_id]> reg
  ∧ is_Some r.2 ∧ resp_code r.1.1 = 200.

(** The process state the routes share: the registry, the regular-file
    flag and modification time of each entry of [DOWNLOAD_DIR], and the
    names in [TEMP_DIR]. *)
Record server := {
  active_downloads : registry;
  download_dir : gmap string (bool * Z);
  temp_dir : list string
}.

(** The clock and the [unlink] calls that raise. *)
Record sweep_env := {
  se_now : Z;
  se_unlink_fails : string -> bool
}.

Definition max_age_seconds : Z := MAX_FILE_AGE_HOURS * 3600.

(** One iteration of the loop over [active_downloads.items()]. *)
Definition sweep_job (E : sweep_env) (cutoff_time : Z)
    (acc : gmap string (bool * Z) * Z * list string)
    (kv : string * DownloadProgress)
  : gmap string (bool * Z) * Z * list string :=
  let '(dir, cleaned_count, to_remove) := acc in
  match completed_at kv.2 with
  | Some t =>
      if t <? cutoff_time then
        let '(dir', cleaned') :=
          match file_path kv.2 with
          | Some n =>
              if bool_decide (is_Some (dir !! n)) && negb (se_unlink_fails E n)
              then (delete n dir, cleaned_count + 1)
              else (dir, cleaned_count)
          | None => (dir, cleaned_count)
          end in
        (dir', cleaned', to_remove ++ [kv.1])
      else acc
  | None => acc
  end.

(** One iteration of the loop over [DOWNLOAD_DIR.iterdir()]. *)
Definition sweep_file (E : sweep_env)
    (acc : gmap string (bool * Z) * Z) (entry : string * (bool * Z))
  : gmap string (bool * Z) * Z :=
  let '(dir, cleaned_count) := acc in
  let '(name, (is_file, mtime)) := entry in
  if is_file && (max_age_seconds <? se_now E - mtime)
     && negb (se_unlink_fails E name)
  then (delete name dir, cleaned_count + 1)
  else acc.

(** The statements that follow the [try] statement in the body of
    [test_url]: the three sweeps and their answer. *)
Definition cleanup_block (E : sweep_env) (s : server) : response * server :=
  let cutoff_time := se_now E - max_age_seconds in
  let '(dir1, count1, to_remove) :=
    foldl (sweep_job E cutoff_time) (download_dir s, 0, [])
          (map_to_list (active_downloads s)) in
  let reg' := foldl (fun r id => delete id r) (active_downloads s) to_remove in
  let '(dir2, count2) :=
    foldl (sweep_file E) (dir1, count1) (map_to_list dir1) in
  let temp' := List.filter (se_unlink_fails E) (temp_dir s) in
  (Json 200 [("success", PBool true);
             ("cleaned_files", PInt count2);
             ("message", PStr ("Cleaned up " +:+ PyStr.of_Z count2 +:+ " old files"))],
   {| active_downloads := reg'; download_dir := dir2; temp_dir := temp' |}).

(** How a statement ends: with a [return], or by running to its end. *)
Inductive flow :=
| Returned (r : response)
| Completed_normally.

(** The first statement of [test_url]: its [try] with the handler. *)
Definition test_url_try (data : option pydict) (extracted : result info_dict)
  : flow :=
  let failed (error_msg : string) :=
    let message :=
      if PyStr.contains "403" error_msg then "URL is blocked (403 Forbidden)"
      else if PyStr.contains "404" error_msg then "Video not found (404)"
      else if PyStr.contains "private" (PyStr.lower error_msg) then "Video is private"
      else "Error: " +:+ error_msg in
    Returned (Json 200 [("success", PBool true);
                        ("accessible", PBool false);
                        ("message", PStr message);
                        ("error", PStr error_msg)]) in
  match data with
  | None => failed "'NoneType' object has no attribute 'get'"
  | Some data =>
      if negb (truthy (dget data "url")) then
        Returned (Json 400 [("error", PStr "URL is required")])
      else
        match extracted with
        | Ok info =>
            Returned (Json 200
              [("success", PBool true);
               ("accessible", PBool true);
               ("title", dget_or (info_fields info) "title" (PStr "Unknown"));
               ("message", PStr "URL is accessible")])
        | Raise e => failed (exn_str e)
        end
  end.

(** [test_url()]: the [try] statement, then the sweeps. *)
Definition test_url (data : option pydict) (extracted : result info_dict)
    (E : sweep_env) (s : server) : response * server :=
  match test_url_try data extracted with
  | Returned r => (r, s)
  | Completed_normally => cleanup_block E s
  end.

(** The functions of the module. *)
Inductive view :=
| v_get_info | v_start_download | v_get_progress | v_download_file
| v_list_downloads | v_update_ytdlp | v_get_available_formats | v_test_url
| v_health_check.

Inductive http_method := GET | POST.

#[global] Instance http_method_eq_dec : EqDecision http_method.
Proof. solve_decision. Defined.

(** A segment of a rule: a literal or a [<variable>]. *)
Inductive segment := Lit (s : string) | Var (name : string).

(** The rules the [@app.route] decorators register, in source order.
    [test_url] carries no decorator. *)
Definition url_map : list (list segment * http_method * view) :=
  [ ([Lit "api"; Lit "info"], POST, v_get_info);
    ([Lit "api"; Lit "download"], POST, v_start_download);
    ([Lit "api"; Lit "progress"; Var "download_id"], GET, v_get_progress);
    ([Lit "api"; Lit "download"; Var "download_id"; Lit "file"], GET, v_download_file);
    ([Lit "api"; Lit "downloads"], GET, v_list_downloads);
    ([Lit "api"; Lit "update-ytdlp"], POST, v_update_ytdlp);
    ([Lit "api"; Lit "formats"], POST, v_get_available_formats);
    ([Lit "health"], GET, v_health_check) ].

Fixpoint rule_matches (rule : list segment) (path : list string) : bool :=
  match rule, path with
  | [], [] => true
  | Lit s :: rule', p :: path' => String.eqb s p && rule_matches rule' path'
  | Var _ :: rule', p :: path' => negb (String.eqb p "") && rule_matches rule' path'
  | _, _ => false
  end.

(** What the framework does with a request. *)
Inductive routed := Call (v : view) | NotFound404 | MethodNotAllowed405.

(** The path of a request, split at its slashes, without the leading one. *)
Definition path_segments (path : string) : list string :=
  match PyStr.split "/" path with
  | "" :: segs => segs
  | segs => segs
  end.

Definition dispatch (m : http_method) (path : string) : routed :=
  let hits := List.filter (fun r => rule_matches r.1.1 (path_segments path)) url_map in
  match List.filter (fun r => bool_decide (r.1.2 = m)) hits with
  | r :: _ => Call r.2
  | [] => if hits is [] then NotFound404 else MethodNotAllowed405
  end.

(** The endpoints the start-up banner of the module prints. *)
Definition documented_endpoints : list (http_method * string) :=
  [ (POST, "/api/info"); (POST, "/api/download"); (GET, "/api/progress/<id>");
    (GET, "/api/download/<id>/file"); (GET, "/api/downloads");
    (POST, "/api/cleanup"); (POST, "/api/update-ytdlp");
    (POST, "/api/test-url"); (GET, "/health") ].

(** ** The other routes *)

(** What [jsonify] is given. *)
#[local] Unset Elimination Schemes.
Inductive json :=
| JNull
| JBool (b : bool)
| JInt (z : Z)
| JFloat (f : pyfloat)
| JStr (s : string)
| JList (items : list json)
| JObj (fields : list (string * json)).
#[local] Set Elimination Schemes.

Definition json_of (v : pyval) : json :=
  match v with
  | PNone => JNull
  | PBool b => JBool b
  | PInt z => JInt z
  | PStr s => JStr s
  end.

Definition json_opt (o : option string) : json :=
  match o with
  | Some s => JStr s
  | None => JNull
  end.

(** [jsonify(body), code] for the routes whose bodies nest. *)
Inductive reply := Reply (code : Z) (body : json).

Definition reply_code (r : reply) : Z := let 'Reply c _ := r in c.
Definition reply_body (r : reply) : json := let 'Reply _ b := r in b.

Definition json_of_format (fd : format_descr) : json :=
  JObj [ ("format_id", json_of (fd_format_id fd));
         ("ext", json_of (fd_ext fd));
         ("quality", json_of (fd_quality fd));
         ("filesize", json_of (fd_filesize fd));
         ("vcodec", json_of (fd_vcodec fd));
         ("acodec", json_of (fd_acodec fd));
         ("width", json_of (fd_width fd));
         ("height", json_of (fd_height fd)) ].

Definition json_of_info (v : video_info) : json :=
  JObj [ ("title", json_of (vi_title v));
         ("duration", json_of (vi_duration v));
         ("view_count", json_of (vi_view_count v));
         ("uploader", json_of (vi_uploader v));
         ("upload_date", json_of (vi_upload_date v));
         ("description", JStr (vi_description v));
         ("thumbnail", json_of (vi_thumbnail v));
         ("formats", JList (json_of_format <$> vi_formats v));
         ("webpage_url", json_of (vi_webpage_url v)) ].

Definition no_body_message : string := "'NoneType' object has no attribute 'get'".

(** [get_info()], given the request body and the extraction library as a
    function of the url. *)
Definition get_info (data : option pydict) (extract : pyval → result info_dict)
  : reply :=
  match data with
  | None => Reply 500 (JObj [("error", JStr no_body_message)])
  | Some data =>
      let url := dget data "url" in
      if negb (truthy url) then Reply 400 (JObj [("error", JStr "URL is required")])
      else
        match get_video_info url (extract url) with
        | Ok info => Reply 200 (JObj [("success", JBool true);
                                     ("data", json_of_info info)])
        | Raise e => Reply 500 (JObj [("error", JStr (exn_str e))])
        end
  end.

(** The dictionary [get_progress] and [list_downloads] build for a record;
    [isoformat] is [datetime.isoformat]. *)
Definition progress_fields (isoformat : Z → string) (download_id : string)
    (progress_obj : DownloadProgress) : json :=
  JObj [ ("download_id", JStr download_id);
         ("status", JStr (status_str (status progress_obj)));
         ("progress", JFloat (progress progress_obj));
         ("filename", json_opt (filename progress_obj));
         ("error", json_opt (error progress_obj));
         ("completed_at", json_opt (isoformat <$> completed_at progress_obj)) ].

(** [get_progress(download_id)] *)
Definition get_progress (isoformat : Z → string) (download_id : string)
    (reg : registry) : reply :=
  match reg !! download_id with
  | None => Reply 404 (JObj [("error", JStr "Download not found")])
  | Some progress_obj => Reply 200 (progress_fields isoformat download_id progress_obj)
  end.

(** [list_downloads()].  The entries come in the order of [map_to_list],
    not in the insertion order of the Python dictionary. *)
Definition list_downloads (isoformat : Z → string) (reg : registry) : reply :=
  Reply 200 (JObj [("downloads",
    JList ((fun kv => progress_fields isoformat kv.1 kv.2) <$> map_to_list reg))]).

(** What [download_file] answers: an error body or [send_file]. *)
Inductive file_reply :=
| FileError (code : Z) (message : string)
| SendFile (name : string) (download_name : option string).

(** [download_file(download_id)], with the names that exist under
    [DOWNLOAD_DIR]. *)
Definition download_file (download_id : string) (reg : registry)
    (existing : gset string) : file_reply :=
  match reg !! download_id with
  | None => FileError 404 "Download not found"
  | Some progress_obj =>
      match file_path progress_obj with
      | Some path =>
          if bool_decide (status progress_obj = Completed) then
            if bool_decide (path ∈ existing)
            then SendFile path (filename progress_obj)
            else FileError 404 "File not found"
          else FileError 400 "File not ready for download"
      | None => FileError 400 "File not ready for download"
      end
  end.

(** [health_check()], with the working directory of the process. *)
Definition health_check (cwd : string) (reg : registry) : reply :=
  Reply 200 (JObj [ ("status", JStr "healthy");
                    ("active_downloads", JInt (Z.of_nat (size reg)));
                    ("download_dir", JStr (cwd +:+ "/" +:+ DOWNLOAD_DIR));
                    ("temp_dir", JStr (cwd +:+ "/" +:+ TEMP_DIR)) ]).

(** *** [get_available_formats] *)

(** The dictionary [format_info] built from a raw format. *)
Definition format_info (f : pydict) : pydict :=
  list_to_map
    [ ("format_id", dget f "format_id"); ("ext", dget f "ext");
      ("resolution", dget_or f "resolution" (PStr "N/A"));
      ("width", dget f "width"); ("height", dget f "height");
      ("fps", dget f "fps"); ("vcodec", dget f "vcodec");
      ("acodec", dget f "acodec"); ("abr", dget f "abr");
      ("vbr", dget f "vbr"); ("tbr", dget f "tbr");
      ("filesize", dget f "filesize");
      ("filesize_approx", dget f "filesize_approx");
      ("format_note", dget f "format_note"); ("quality", dget f "quality") ].

(** [x.get('height', 0) if x.get('height') else 0]: the sort key.  A
    height that is a non-empty string cannot be ordered against the
    numbers; Python raises the [TypeError] at the first comparison that
    meets it, in the sort or in the search that follows, the model when it
    computes the key. *)
Definition height_key (x : pydict) : result Z :=
  if truthy (dget x "height") then
    match as_int (dget_or x "height" (PInt 0)) with
    | Some z => Ok z
    | None => Raise (TypeError "'<' not supported between instances of 'str' and 'int'")
    end
  else Ok 0.

(** [list.sort(key=..., reverse=True)] on entries paired with their keys:
    descending, entries with equal keys in their original order. *)
Fixpoint insert_desc {A} (k : Z) (x : A) (l : list (Z * A)) : list (Z * A) :=
  match l with
  | [] => [(k, x)]
  | (k', y) :: l' =>
      if k' <=? k then (k, x) :: l else (k', y) :: insert_desc k x l'
  end.

Definition sort_desc {A} (l : list (Z * A)) : list (Z * A) :=
  foldr (fun kx acc => insert_desc kx.1 kx.2 acc) [] l.

(** The keys of all entries, or the first exception. *)
Fixpoint with_keys (l : list pydict) : result (list (Z * pydict)) :=
  match l with
  | [] => Ok []
  | x :: l' =>
      k ← height_key x;
      rest ← with_keys l';
      mret ((k, x) :: rest)
  end.

(** [f.get('height', 0) >= 1080 and f.get('vcodec') != 'none'] *)
Definition is_best_video (f : pydict) : result bool :=
  match as_int (dget_or f "height" (PInt 0)) with
  | Some h =>
      Ok ((1080 <=? h) && negb (bool_decide (dget f "vcodec" = PStr "none")))
  | None => Raise (TypeError "'>=' not supported between instances of 'NoneType' and 'int'")
  end.

(** [f.get('acodec') != 'none' and f.get('vcodec') == 'none'] *)
Definition is_best_audio (f : pydict) : bool :=
  negb (bool_decide (dget f "acodec" = PStr "none"))
  && bool_decide (dget f "vcodec" = PStr "none").

(** [next((f for f in formats if test(f)), None)] *)
Fixpoint first_match (test : pydict → result bool) (formats : list pydict)
  : result (option pydict) :=
  match formats with
  | [] => Ok None
  | f :: rest =>
      match test f with
      | Raise e => Raise e
      | Ok true => Ok (Some f)
      | Ok false => first_match test rest
      end
  end.

(** The listing the route computes inside its [try]. *)
Record format_listing := {
  fl_title : pyval;
  fl_formats : list pydict;
  fl_best_video : option pydict;
  fl_best_audio : option pydict
}.

Definition list_formats (info : info_dict) : result format_listing :=
  let formats :=
    match info_formats info with
    | None => []
    | Some fs => format_info <$> List.filter has_codec fs
    end in
  keyed ← with_keys formats;
  let formats := (fun kx => kx.2) <$> sort_desc keyed in
  best_video ← first_match is_best_video formats;
  best_audio ← first_match (fun f => Ok (is_best_audio f)) formats;
  mret {| fl_title := dget (info_fields info) "title";
          fl_formats := formats;
          fl_best_video := best_video;
          fl_best_audio := best_audio |}.

Definition json_of_dict (d : pydict) : json :=
  JObj ((fun kv => (kv.1, json_of kv.2)) <$> map_to_list d).

Definition json_of_pick (o : option pydict) : json :=
  match o with
  | Some f => json_of_dict f
  | None => JNull
  end.

(** [get_available_formats()] *)
Definition get_available_formats (data : option pydict)
    (extract : pyval → result info_dict) : reply :=
  match data with
  | None => Reply 500 (JObj [("error", JStr no_body_message)])
  | Some data =>
      let url := dget data "url" in
      if negb (truthy url) then Reply 400 (JObj [("error", JStr "URL is required")])
      else
        match (info ← extract url; list_formats info) with
        | Ok l =>
            Reply 200 (JObj [ ("success", JBool true);
                              ("title", json_of (fl_title l));
                              ("formats", JList (json_of_dict <$> fl_formats l));
                              ("recommended",
                               JObj [ ("best_video", json_of_pick (fl_best_video l));
                                      ("best_audio", json_of_pick (fl_best_audio l)) ]) ])
        | Raise e => Reply 500 (JObj [("error", JStr (exn_str e))])
        end
  end.

(** The loop of the start-up block over [TEMP_DIR.glob("*")]: one [try]
    around the whole loop, so the first [unlink] that raises ends it.  The
    result is what is left of the temp directory. *)
Fixpoint startup_cleanup (unlink_raises : string → bool) (temp : list string)
  : list string :=
  match temp with
  | [] => []
  | temp_file :: rest =>
      if unlink_raises temp_file then temp
      else startup_cleanup unlink_raises rest
  end.

(** ** An instance to run the model on

    [decimal_float] reads the plain decimal literals of [float]'s grammar
    (an optional sign, digits, an optional point and digits) and rejects
    everything else; [plain_externals] pairs it with the identity, which
    is what [secure_filename] does on a name that is already clean. *)

Definition digit_of (c : ascii) : option Z :=
  let n := nat_of_ascii c in
  if (48 <=? n)%nat && (n <=? 57)%nat then Some (Z.of_nat n - 48) else None.

(** The leading digits of [s]: their value after [acc], how many there
    are, and what follows them. *)
Fixpoint read_digits (s : string) (acc : Z) (count : nat) : Z * nat * string :=
  match s with
  | EmptyString => (acc, count, EmptyString)
  | String c s' =>
      match digit_of c with
      | Some v => read_digits s' (10 * acc + v) (S count)
      | None => (acc, count, s)
      end
  end.

Definition unsigned_decimal (s : string) : option Q :=
  let '(whole, n1, rest) := read_digits s 0 0 in
  match rest with
  | EmptyString => if (0 <? n1)%nat then Some (inject_Z whole) else None
  | String "." frac =>
      let '(num, n2, rest') := read_digits frac 0 0 in
      match rest' with
      | EmptyString =>
          if (0 <? n1 + n2)%nat
          then Some (inject_Z whole + inject_Z num / inject_Z (10 ^ Z.of_nat n2))%Q
          else None
      | _ => None
      end
  | _ => None
  end.

Definition decimal_float (s : string) : option pyfloat :=
  match s with
  | String "-" s' => (fun q => Finite (- q)%Q) <$> unsigned_decimal s'
  | String "+" s' => Finite <$> unsigned_decimal s'
  | _ => Finite <$> unsigned_decimal s
  end.

Definition plain_externals : Externals :=
  {| py_float := decimal_float; secure_filename := fun name => name |}.

(** Sample surroundings for job [job-1]: a library that reports one
    quarter downloaded and the finished file, then returns; one that is
    refused with 403 until it is called with the retry user agent; one
    that returns without leaving a file. *)
Definition sample_events : list pydict :=
  [ {[ "status" := PStr "downloading"; "total_bytes" := PInt 1000;
       "downloaded_bytes" := PInt 250 ]};
    {[ "status" := PStr "finished";
       "filename" := PStr "temp/job-1_video.mp4" ]} ].

Definition sample_world : world :=
  {| ydl_download := fun _ _ => {| lc_events := sample_events; lc_outcome := None |};
     temp_after := [ "job-1_video.mp4"; "job-2_other.mp4.part" ];
     move_error := None;
     unlink_fails := fun _ => false;
     now := 1000 |}.

Definition sample_retry_world : world :=
  {| ydl_download := fun o _ =>
       if String.eqb (o_user_agent o) retry_user_agent
       then {| lc_events := sample_events; lc_outcome := None |}
       else {| lc_events := [];
               lc_outcome := Some (DownloadError "HTTP Error 403: Forbidden") |};
     temp_after := [ "job-1_video.mp4" ];
     move_error := None;
     unlink_fails := fun _ => false;
     now := 1000 |}.

Definition sample_empty_world : world :=
  {| ydl_download := fun _ _ => {| lc_events := []; lc_outcome := None |};
     temp_after := [ "job-2_other.mp4.part" ];
     move_error := None;
     unlink_fails := fun _ => false;
     now := 1000 |}.

Definition sample_registry : registry :=
  {[ "job-1" := DownloadProgress_init "job-1";
     "job-2" := set_status Downloading (DownloadProgress_init "job-2") ]}.

Definition sample_run (W : world) : worker_end :=
  download_video (H := plain_externals) W (PStr "https://youtu.be/x") (PStr "best")
    "job-1" PNone sample_registry {[ "video.mp4" ]}.

(** Sample metadata: a 720p video stream, an audio stream without
    height, a 1080p video stream and a storyboard without codecs; and the
    same without the 1080p stream. *)
Definition sample_formats_low : list pydict :=
  [ {[ "format_id" := PStr "136"; "height" := PInt 720;
       "vcodec" := PStr "avc1"; "acodec" := PStr "none" ]};
    {[ "format_id" := PStr "140"; "vcodec" := PStr "none";
       "acodec" := PStr "mp4a" ]};
    {[ "format_id" := PStr "sb0"; "vcodec" := PStr "none";
       "acodec" := PStr "none" ]} ].

Definition sample_info : info_dict :=
  {| info_fields := {[ "title" := PStr "Sample" ]};
     info_formats := Some (sample_formats_low ++
       [ {[ "format_id" := PStr "137"; "height" := PInt 1080;
            "vcodec" := PStr "avc1"; "acodec" := PStr "none" ]} ]) |}.

Definition sample_info_low : info_dict :=
  {| info_fields := {[ "title" := PStr "Sample" ]};
     info_formats := Some sample_formats_low |}.

Definition sample_body : pydict := {[ "url" := PStr "https://youtu.be/x" ]}.

(** ** The predicates of the statements *)

(** The record under [id] exists and satisfies [P]. *)
Definition job_at (id : string) (P : DownloadProgress → Prop) (reg : registry)
  : Prop :=
  ∃ j, reg !! id = Some j ∧ P j.

(** [file_path] is set exactly in status completed, [error] exactly in
    status error, and never both. *)
Definition job_invariant (j : DownloadProgress) : Prop :=
  (is_Some (file_path j) ↔ status j = Completed)
  ∧ (is_Some (error j) ↔ status j = Error)
  ∧ ¬ (is_Some (file_path j) ∧ is_Some (error j)).

(** The part of [job_invariant] that survives an error reported through
    the hook. *)
Definition job_invariant_weak (j : DownloadProgress) : Prop :=
  (is_Some (file_path j) ↔ status j = Completed)
  ∧ (status j = Error → is_Some (error j)).

(** The hook dictionary does not report the error phase. *)
Definition no_error_phase (d : pydict) : Prop :=
  d !! "status" ≠ Some (PStr "error").

(** A progress value within [0, 100]. *)
Definition in_range (p : pyfloat) : Prop :=
  match p with
  | Finite q => (0 <= q)%Q ∧ (q <= 100)%Q
  | _ => False
  end.

(** One of the substrings the handler looks for occurs in the message. *)
Definition pattern_hit (error_msg : string) : bool :=
  PyStr.contains "403" error_msg || PyStr.contains "Forbidden" error_msg
  || PyStr.contains "404" error_msg
  || PyStr.contains "not found" (PyStr.lower error_msg)
  || PyStr.contains "copyright" (PyStr.lower error_msg)
  || PyStr.contains "private" (PyStr.lower error_msg)
  || PyStr.contains "unavailable" (PyStr.lower error_msg).

(** The explanations the handler substitutes. *)
Definition canned_messages : list string :=
  [ "YouTube blocked the download (403 Forbidden). This video may be restricted or require sign-in. Try a different video or update yt-dlp.";
    "Video not found (404). The video may be private, deleted, or the URL is incorrect.";
    "Video is protected by copyright and cannot be downloaded.";
    "This video is private and cannot be downloaded.";
    "Video is unavailable in your region or has been removed." ].

(** While the library runs: no [file_path], not completed, and an
    [error] in status error. *)
Definition running_weak (j : DownloadProgress) : Prop :=
  file_path j = None ∧ status j ≠ Completed
  ∧ (status j = Error → is_Some (error j)).

(** While the library runs and no error was reported: no [file_path], no
    [error], neither completed nor in error. *)
Definition running_clean (j : DownloadProgress) : Prop :=
  file_path j = None ∧ error j = None
  ∧ status j ≠ Completed ∧ status j ≠ Error.

Ltac hook_cases :=
  unfold hook_body, dindex;
  repeat (case_match || case_decide); simpl in *; subst.

(** The sweep removes the record: it was completed before the cutoff. *)
Definition expired (E : sweep_env) (j : DownloadProgress) : bool :=
  match completed_at j with
  | Some t => t <? se_now E - max_age_seconds
  | None => false
  end.

(** The second sweep removes the entry: a regular file older than the
    maximal age whose [unlink] does not raise. *)
Definition stale (E : sweep_env) (entry : string * (bool * Z)) : bool :=
  entry.2.1 && (max_age_seconds <? se_now E - entry.2.2)
  && negb (se_unlink_fails E entry.1).

(** The height of a listed format is absent or a number. *)
Definition height_typed (f : pydict) : Prop :=
  dget f "height" = PNone ∨ ∃ z, dget f "height" = PInt z.

(** The sort key of a listed format whose height is absent or a number. *)
Definition height_of (f : pydict) : Z :=
  default 0 (as_int (dget f "height")).

(** A listed format that can be recommended as the best video. *)
Definition recommendable (f : pydict) : Prop :=
  (∃ z, dget f "height" = PInt z ∧ 1080 ≤ z) ∧ dget f "vcodec" ≠ PStr "none".

(** Descending order of the keys. *)
Definition by_key {A} : relation (Z * A) := fun a b => b.1 ≤ a.1.

(** Descending order of the heights, an absent height counting as 0. *)
Definition by_height : relation pydict :=
  fun f g => height_of g ≤ height_of f.

(** The listing as it is sorted. *)
Definition sorted_rows (rows : list pydict) : list pydict :=
  (fun kx => kx.2) <$> sort_desc ((fun f => (height_of f, f)) <$> rows).

(** The formats the listing route keeps, in source order. *)
Definition kept_formats (info : info_dict) : list pydict :=
  format_info <$> List.filter has_codec (default [] (info_formats info)).

Section EventPredicates.
Context `{Externals}.

(** What a downloading dictionary must report for the progress to stay
    within bounds: no more bytes downloaded than the total when the
    total is used, a percentage within bounds when the string is. *)
Definition bounded_event (d : pydict) : Prop :=
  d !! "status" = Some (PStr "downloading") →
  (total_known d = true →
   ∀ n t, d !! "downloaded_bytes" ≫= as_int = Some n →
          d !! "total_bytes" ≫= as_int = Some t → 0 ≤ n ≤ t)
  ∧ (total_known d = false →
     ∀ s p, d !! "_percent_str" = Some (PStr s) →
            py_float (PyStr.replace "%" "" (PyStr.strip s)) = Some p →
            in_range p).

End EventPredicates.

(** ** Properties *)

(** *** Strings *)

Lemma rsplit1_spec sep s l r :
  PyStr.rsplit1 sep s = Some (l, r) → s = l +:+ String sep r.
Proof.
  revert l r. induction s as [|c s IH]; intros l r; simpl; [done|].
  destruct (PyStr.rsplit1 sep s) as [[l' r']|] eqn:E.
  - intros [= <- <-]. rewrite (IH l' r' eq_refl) at 1. done.
  - case_decide; [|done]. intros [= <- <-]. by subst.
Qed.

Lemma append_length s1 s2 :
  String.length (s1 +:+ s2) = (String.length s1 + String.length s2)%nat.
Proof. induction s1 as [|c s1 IH]; simpl; [done|]. by rewrite IH. Qed.

Lemma take_length n s : (String.length (PyStr.take n s) ≤ n)%nat.
Proof.
  unfold PyStr.take. revert s. induction n as [|n IH]; intros [|c s]; simpl; try lia.
  specialize (IH s). lia.
Qed.

Lemma next_name_longer s c :
  (String.length s < String.length (next_name s c))%nat.
Proof.
  unfold next_name. destruct (PyStr.rsplit1 "." s) as [[l r]|] eqn:E.
  - apply rsplit1_spec in E. subst s.
    repeat (rewrite append_length; simpl). lia.
  - repeat (rewrite append_length; simpl). lia.
Qed.

(** *** The file-name loop *)

Lemma unique_loop_enough fuel : ∀ existing name c (seen : gset string),
  seen ⊆ existing →
  (∀ x, x ∈ seen → (String.length x < String.length name)%nat) →
  (size existing < size seen + fuel)%nat →
  is_Some (unique_loop fuel existing name c).
Proof.
  induction fuel as [|fuel IH]; intros existing name c seen Hsub Hlen Hsize.
  - apply subseteq_size in Hsub. lia.
  - simpl. case_bool_decide as Hin; [|by eexists].
    apply (IH _ _ _ (seen ∪ {[name]})).
    + set_solver.
    + intros x [Hx| ->%elem_of_singleton]%elem_of_union.
      * pose proof (Hlen x Hx). pose proof (next_name_longer name c). lia.
      * apply next_name_longer.
    + rewrite size_union, size_singleton; [lia|].
      intros x Hx ->%elem_of_singleton. specialize (Hlen _ Hx). lia.
Qed.

(** The loop ends within the fuel [unique_filename] gives it. *)
Lemma unique_loop_terminates existing name :
  unique_loop (S (size existing)) existing name 1
  = Some (unique_filename existing name).
Proof.
  unfold unique_filename.
  destruct (unique_loop_enough (S (size existing)) existing name 1 ∅) as [r ->];
    [set_solver | set_solver | rewrite size_empty; lia | done].
Qed.

Lemma unique_loop_fresh fuel : ∀ existing name c r,
  unique_loop fuel existing name c = Some r → r ∉ existing.
Proof.
  induction fuel as [|fuel IH]; intros existing name c r; simpl; [done|].
  case_bool_decide; [apply IH | by intros [= <-]].
Qed.

(** The name the loop settles on does not exist yet. *)
Lemma unique_filename_fresh existing name :
  unique_filename existing name ∉ existing.
Proof. eapply unique_loop_fresh, unique_loop_terminates. Qed.

(** *** The registry under the hook *)

Lemma job_at_weaken id (P P' : DownloadProgress → Prop) reg :
  (∀ j, P j → P' j) → job_at id P reg → job_at id P' reg.
Proof. intros HP (j & ? & ?). exists j. eauto. Qed.

Section HookFacts.
Context `{Externals}.
Variable P : DownloadProgress → Prop.
Variable Good : pydict → Prop.
Hypothesis hook_keeps : ∀ d j, Good d → P j → P (hook_body d j).1.

Lemma progress_hook_keeps d id reg :
  Good d → job_at id P reg → job_at id P (progress_hook d id reg).1.
Proof.
  intros Hd (j & Hj & HP). unfold progress_hook. rewrite Hj.
  pose proof (hook_keeps d j Hd HP) as HP'.
  destruct (hook_body d j) as [j' e]. simpl in *.
  exists j'. by rewrite lookup_insert_eq.
Qed.

Lemma run_hooks_keeps evs : ∀ id reg,
  Forall Good evs → job_at id P reg →
  Forall (job_at id P) (run_hooks evs id reg).1.
Proof.
  induction evs as [|d evs IH]; intros id reg Hall Hreg; simpl; [constructor|].
  inversion Hall as [|? ? Hd Hevs]; subst.
  pose proof (progress_hook_keeps d id reg Hd Hreg) as Hstep.
  destruct (progress_hook d id reg) as [reg' [e|]]; simpl in *.
  - by constructor.
  - specialize (IH id reg' Hevs Hstep).
    destruct (run_hooks evs id reg') as [tr e']. simpl in *. by constructor.
Qed.

Lemma last_keeps (tr : list registry) id reg :
  Forall (job_at id P) tr → job_at id P reg → job_at id P (List.last tr reg).
Proof.
  intros Htr Hreg. induction Htr as [|r tr Hr Htr IH]; simpl; [done|].
  destruct tr; [done|]. apply IH.
Qed.

Lemma ydl_run_keeps c id reg :
  Forall Good (lc_events c) → job_at id P reg →
  Forall (job_at id P) (ydl_run c id reg).1.1
  ∧ job_at id P (ydl_run c id reg).1.2.
Proof.
  intros Hc Hreg. unfold ydl_run.
  pose proof (run_hooks_keeps (lc_events c) id reg Hc Hreg) as Htr.
  destruct (run_hooks (lc_events c) id reg) as [tr e]. simpl in *.
  split; [done|]. by apply last_keeps.
Qed.

Lemma download_phase_keeps W opts url id reg :
  (∀ o u, Forall Good (lc_events (ydl_download W o u))) →
  job_at id P reg →
  Forall (job_at id P) (download_phase W opts url id reg).1.1
  ∧ job_at id P (download_phase W opts url id reg).1.2.
Proof.
  intros HW Hreg. unfold download_phase.
  destruct (ydl_run_keeps (ydl_download W opts url) id reg (HW _ _) Hreg)
    as [Htr1 Hreg1].
  destruct (ydl_run (ydl_download W opts url) id reg) as [[tr1 reg1] r1].
  simpl in *.
  destruct r1 as [[]|]; simpl; try done.
  case_match; simpl; [|done].
  destruct (ydl_run_keeps (ydl_download W (retry_opts opts) url) id reg1
              (HW _ _) Hreg1) as [Htr2 Hreg2].
  destruct (ydl_run (ydl_download W (retry_opts opts) url) id reg1)
    as [[tr2 reg2] r2].
  simpl in *. split; [|done]. by apply Forall_app.
Qed.

End HookFacts.

(** *** The format chain *)

(** C6. With quality ['1080p'] and no custom format the worker hands the
    library the chain written in the source, and its alternatives come in
    the documented priority order: first the exact-height pair with m4a
    audio, later the best video at or below 1080 with the best audio,
    then the combined stream at or below 1080, and the absolute best
    last. *)
Theorem format_chain_1080p (id : string) (custom_format : pyval) :
  truthy custom_format = false →
  let opts := build_opts (PStr "1080p") id custom_format in
  o_format opts = PStr format_1080p
  ∧ format_1080p =
      "bestvideo[height<=1080][height>=1080]+bestaudio[ext=m4a]/bestvideo[height<=1080][height>=1080]+bestaudio/best[height<=1080][height>=1080]/bestvideo[height<=1080]+bestaudio[ext=m4a]/bestvideo[height<=1080]+bestaudio/best[height<=1080]/best"
  ∧ format_chain format_1080p =
      [ "bestvideo[height<=1080][height>=1080]+bestaudio[ext=m4a]";
        "bestvideo[height<=1080][height>=1080]+bestaudio";
        "best[height<=1080][height>=1080]";
        "bestvideo[height<=1080]+bestaudio[ext=m4a]";
        "bestvideo[height<=1080]+bestaudio";
        "best[height<=1080]";
        "best" ]
  ∧ format_chain format_1080p !! 0%nat
      = Some "bestvideo[height<=1080][height>=1080]+bestaudio[ext=m4a]"
  ∧ format_chain format_1080p !! 4%nat = Some "bestvideo[height<=1080]+bestaudio"
  ∧ format_chain format_1080p !! 5%nat = Some "best[height<=1080]"
  ∧ List.last (format_chain format_1080p) "" = "best"
  ∧ o_format (retry_opts opts) = PStr format_1080p.
Proof.
  intros Hcf opts. subst opts. unfold build_opts. rewrite Hcf.
  repeat split; reflexivity.
Qed.

Lemma format_chain_1080p_witness :
  truthy PNone = false
  ∧ o_format (build_opts (PStr "1080p") "job-1" PNone) = PStr format_1080p.
Proof.
  split; [reflexivity|].
  exact (proj1 (format_chain_1080p "job-1" PNone eq_refl)).
Defined.

(** *** The metadata fetcher *)

(** C8, as stated: the message of the error is the library's message.
    It is not: for the library message [Video unavailable] the error
    reads [Failed to extract video info: Video unavailable]. *)
Lemma get_video_info_message_not_verbatim :
  ¬ ∃ e, get_video_info (PStr "https://youtu.be/x")
           (Raise (DownloadError "Video unavailable")) = Raise e
         ∧ exn_str e = "Video unavailable".
Proof. intros (e & [= <-] & He). discriminate He. Qed.

(** C8, amended. Every failure of the fetcher is one plain exception whose
    message is the fixed prefix [Failed to extract video info: ] followed
    by the message of the underlying failure, unchanged; for a failure of
    the library that is the library's message. *)
Theorem get_video_info_wraps (url : pyval) (extracted : result info_dict) :
  (∀ e, extracted = Raise e →
     get_video_info url extracted
     = Raise (OtherError ("Failed to extract video info: " +:+ exn_str e)))
  ∧ (∀ e', get_video_info url extracted = Raise e' →
       ∃ cause, e' = OtherError ("Failed to extract video info: " +:+ exn_str cause)
                ∧ (∀ e, extracted = Raise e → cause = e)).
Proof.
  split.
  - intros e ->. reflexivity.
  - intros e'. unfold get_video_info.
    destruct extracted as [info|e]; simpl.
    + destruct (describe (info_fields info)) as [s|e0]; simpl; [done|].
      intros [= <-]. exists e0. split; [done|]. intros ? [=].
    + intros [= <-]. exists e. split; [done|]. by intros ? [= <-].
Qed.

(** C9, as stated: the ellipsis is appended only to a description that
    was cut. It is not: the five-character description [short] comes back
    as [short...]. *)
Lemma description_ellipsis_on_short :
  let info := {| info_fields := {[ "description" := PStr "short" ]};
                 info_formats := None |} in
  PyStr.take 200 "short" = "short"
  ∧ ∃ v, get_video_info (PStr "https://youtu.be/x") (Ok info) = Ok v
         ∧ vi_description v = "short..."
         ∧ vi_description v ≠ "short".
Proof.
  split; [reflexivity|]. eexists.
  split; [reflexivity|]. split; [reflexivity|discriminate].
Qed.

(** C9, amended. A successful fetch returns the first 200 characters of
    the description followed by the ellipsis whenever the description is
    non-empty (cut or not), and the empty string otherwise; it returns at
    most 20 format descriptors, the first 20 of the entries whose video
    codec or audio codec is not ['none'], in their order. *)
Theorem get_video_info_shape (url : pyval) (info : info_dict) (v : video_info) :
  get_video_info url (Ok info) = Ok v →
  (if truthy (dget (info_fields info) "description")
   then ∃ s, dget (info_fields info) "description" = PStr s
             ∧ vi_description v = PyStr.take 200 s +:+ "..."
   else vi_description v = "")
  ∧ (String.length (vi_description v) ≤ 203)%nat
  ∧ (length (vi_formats v) ≤ 20)%nat
  ∧ vi_formats v
    = List.firstn 20 (format_entry <$>
                        List.filter has_codec (default [] (info_formats info)))
  ∧ Forall (fun fd => fd_vcodec fd ≠ PStr "none" ∨ fd_acodec fd ≠ PStr "none")
           (vi_formats v).
Proof.
  unfold get_video_info. simpl.
  destruct (describe (info_fields info)) as [s|e] eqn:Hd; simpl; [|done].
  intros [= <-]. simpl.
  assert (Hfmt : collect_formats info
                 = format_entry <$>
                     List.filter has_codec (default [] (info_formats info))).
  { unfold collect_formats. by destruct (info_formats info). }
  rewrite Hfmt. unfold describe in Hd.
  split; [|split; [|split; [|split]]].
  - unfold dget_or, dget in *.
    destruct (info_fields info !! "description") as [v0|]; simpl in *;
      [|by injection Hd as <-].
    destruct (truthy v0); [|by injection Hd as <-].
    destruct v0 as [| | |s0]; simplify_eq/=. by exists s0.
  - destruct (truthy _); [|injection Hd as <-; simpl; lia].
    destruct (dget_or _ _ _); simplify_eq/=.
    rewrite append_length. pose proof (take_length 200 s0). simpl. lia.
  - rewrite length_firstn. lia.
  - done.
  - apply Forall_take, Forall_forall. intros fd Hin.
    apply list_elem_of_fmap in Hin as (f & -> & Hf).
    apply list_elem_of_In, filter_In in Hf as [_ Hc].
    unfold has_codec in Hc. simpl.
    apply orb_true_iff in Hc as [Hc|Hc]; apply negb_true_iff in Hc;
      apply bool_decide_eq_false in Hc; auto.
Qed.

Lemma get_video_info_shape_witness :
  let info := {| info_fields := {[ "description" := PStr "short" ]};
                 info_formats := Some [ {[ "vcodec" := PStr "none";
                                          "acodec" := PStr "none" ]} ;
                                        {[ "vcodec" := PStr "avc1";
                                           "acodec" := PStr "none" ]} ] |} in
  ∃ v, get_video_info (PStr "u") (Ok info) = Ok v
       ∧ vi_description v = "short..." ∧ length (vi_formats v) = 1%nat.
Proof.
  intros info. eexists. split; [reflexivity|].
  pose proof (get_video_info_shape (PStr "u") info _ eq_refl) as (Hd & _ & _ & Hf & _).
  split; [reflexivity|]. rewrite Hf. reflexivity.
Defined.

(** *** Submission *)

(** C2, as stated: a new job is admitted exactly when fewer than three
    records are active. It is not: on an empty registry a submission whose
    [url] is missing is turned away with 400 although no job is active. *)
Lemma start_download_needs_url :
  active_count ∅ < MAX_CONCURRENT_DOWNLOADS
  ∧ ¬ admitted "job-1" ∅ (start_download (Some ∅) "job-1" ∅)
  ∧ start_download (Some ∅) "job-1" ∅
    = (Json 400 [("error", PStr "URL is required")], ∅, None).
Proof.
  split; [reflexivity|]. split; [|reflexivity].
  intros (_ & [t Ht] & _). discriminate Ht.
Qed.

(** C2, amended. For a submission that carries a non-empty [url], a new
    job is admitted exactly when fewer than three records of the registry
    have status starting, downloading or processing; when three or more
    have, the answer is the 429 error and the registry is left as it was,
    with no worker started. *)
Theorem start_download_gate (data : pydict) (fresh_id : string) (reg : registry) :
  truthy (dget data "url") = true →
  (admitted fresh_id reg (start_download (Some data) fresh_id reg)
   ↔ active_count reg < MAX_CONCURRENT_DOWNLOADS)
  ∧ (MAX_CONCURRENT_DOWNLOADS ≤ active_count reg →
     start_download (Some data) fresh_id reg
     = (Json 429 [("error", PStr "Too many concurrent downloads. Please wait.")],
        reg, None))
  ∧ (active_count reg < MAX_CONCURRENT_DOWNLOADS →
     (start_download (Some data) fresh_id reg).1.2 !! fresh_id
     = Some (DownloadProgress_init fresh_id)).
Proof.
  intros Hurl. unfold start_download. rewrite Hurl. simpl.
  destruct (MAX_CONCURRENT_DOWNLOADS <=? active_count reg) eqn:Hc.
  - apply Z.leb_le in Hc. split; [|split; [done|lia]].
    split; [|lia]. intros (_ & [t Ht] & _). discriminate Ht.
  - apply Z.leb_gt in Hc. split; [|split; [lia|]].
    + split; [done|]. intros _. unfold admitted. simpl. eauto.
    + intros _. simpl. apply lookup_insert_eq.
Qed.

Lemma start_download_gate_witness :
  let data : pydict := {[ "url" := PStr "https://youtu.be/x" ]} in
  let busy : registry :=
    {[ "a" := DownloadProgress_init "a";
       "b" := set_status Downloading (DownloadProgress_init "b");
       "c" := set_status Processing (DownloadProgress_init "c");
       "d" := set_status Completed (DownloadProgress_init "d") ]} in
  truthy (dget data "url") = true
  ∧ active_count busy = 3
  ∧ resp_code (start_download (Some data) "e" busy).1.1 = 429
  ∧ admitted "e" (delete "a" busy) (start_download (Some data) "e" (delete "a" busy)).
Proof.
  intros data busy.
  pose proof (start_download_gate data "e" busy eq_refl) as (_ & Hfull & _).
  pose proof (start_download_gate data "e" (delete "a" busy) eq_refl) as (Hadm & _).
  split; [reflexivity|]. split; [vm_compute; reflexivity|].
  split.
  - rewrite Hfull; [reflexivity | vm_compute; discriminate].
  - apply Hadm. vm_compute. reflexivity.
Defined.

(** *** File-name collisions *)

(** C3. With [video.mp4] present, a second file of that name is saved as
    [video_1.mp4], as the claim says; with [video.mp4] and [video_1.mp4]
    present, the third is saved as [video_1_2.mp4], not [video_2.mp4]: each
    round of the loop splits the name the previous round built, so the
    suffixes pile up. The whole worker shows the same on a temp file
    [job-3_video.mp4]. *)
Theorem collision_suffixes_pile_up :
  unique_filename {[ "video.mp4" ]} "video.mp4" = "video_1.mp4"
  ∧ unique_filename {[ "video.mp4"; "video_1.mp4" ]} "video.mp4" = "video_1_2.mp4"
  ∧ unique_filename {[ "video.mp4"; "video_1.mp4" ]} "video.mp4" ≠ "video_2.mp4"
  ∧ let W := {| ydl_download := fun _ _ => {| lc_events := []; lc_outcome := None |};
                temp_after := [ "job-3_video.mp4" ];
                move_error := None;
                unlink_fails := fun _ => false;
                now := 1000 |} in
    let r := download_video (H := plain_externals) W (PStr "https://youtu.be/x")
               (PStr "best") "job-3" PNone
               {[ "job-3" := DownloadProgress_init "job-3" ]}
               {[ "video.mp4"; "video_1.mp4" ]} in
    (filename <$> w_reg r !! "job-3") = Some (Some "video_1_2.mp4")
    ∧ w_downloads r = {[ "video.mp4"; "video_1.mp4"; "video_1_2.mp4" ]}.
Proof.
  split; [vm_compute; reflexivity|].
  split; [vm_compute; reflexivity|].
  split; [vm_compute; discriminate|].
  split; vm_compute; reflexivity.
Qed.

(** *** The sweep *)

Lemma test_url_try_returns data extracted :
  ∃ r, test_url_try data extracted = Returned r.
Proof.
  unfold test_url_try. destruct data as [data|]; [|by eexists].
  destruct (negb _); [by eexists|]. destruct extracted; by eexists.
Qed.

Lemma dispatch_calls_registered m path v :
  dispatch m path = Call v → v ∈ (fun r => r.2) <$> url_map.
Proof.
  unfold dispatch.
  destruct (List.filter _ (List.filter _ url_map)) as [|r rest] eqn:Hf.
  - by destruct (List.filter _ url_map).
  - intros [= <-]. apply list_elem_of_fmap. exists r. split; [done|].
    assert (Hin : In r (r :: rest)) by (by left).
    rewrite <- Hf in Hin. apply filter_In in Hin as [Hin _].
    apply filter_In in Hin as [Hin _]. by apply list_elem_of_In.
Qed.

(** C4. The banner of the module lists [POST /api/cleanup], yet no rule
    is registered for it: the request is answered 404 and nothing is
    swept. The sweep is the tail of [test_url], after a [try] statement
    both of whose arms return; [test_url] itself carries no route and
    leaves the server state alone whenever it is called. Run on its own,
    the block does what the claim says: of two jobs completed 25 hours
    and 1 hour ago it removes the first with its file and keeps the
    second, removes an orphan file older than 24 hours, empties the temp
    directory and counts two files. *)
Theorem cleanup_never_runs :
  let hour := 3600 in
  let E := {| se_now := 100 * hour; se_unlink_fails := fun _ => false |} in
  let old_job := mark_completed "old.mp4" (75 * hour) (DownloadProgress_init "old") in
  let new_job := mark_completed "new.mp4" (99 * hour) (DownloadProgress_init "new") in
  let s := {| active_downloads := {[ "old" := old_job; "new" := new_job ]};
              download_dir := {[ "old.mp4" := (true, 75 * hour);
                                 "new.mp4" := (true, 99 * hour);
                                 "orphan.mp4" := (true, 70 * hour) ]};
              temp_dir := [ "x_video.part" ] |} in
  (POST, "/api/cleanup") ∈ documented_endpoints
  ∧ dispatch POST "/api/cleanup" = NotFound404
  ∧ (∀ m path, dispatch m path ≠ Call v_test_url)
  ∧ (∀ data extracted E' s', (test_url data extracted E' s').2 = s')
  ∧ cleanup_block E s
    = (Json 200 [("success", PBool true); ("cleaned_files", PInt 2);
                 ("message", PStr "Cleaned up 2 old files")],
       {| active_downloads := {[ "new" := new_job ]};
          download_dir := {[ "new.mp4" := (true, 99 * hour) ]};
          temp_dir := [] |}).
Proof.
  intros hour E old_job new_job s.
  split; [set_solver|]. split; [reflexivity|]. split; [|split].
  - intros m path Hc. apply dispatch_calls_registered in Hc.
    vm_compute in Hc. set_solver.
  - intros data extracted E' s'. unfold test_url.
    by destruct (test_url_try_returns data extracted) as [r ->].
  - vm_compute. reflexivity.
Qed.

(** *** The progress hook *)

(** C5, as stated: when the two byte counts are not both known the hook
    turns to the percentage string. It does not when only the downloaded
    count is missing: with a total of 1000 and the string [ 50.0%], which
    reads as 50, the hook fails on the lookup of ['downloaded_bytes'] and
    leaves progress and status as they were. *)
Lemma progress_hook_missing_downloaded :
  let d : pydict := {[ "status" := PStr "downloading";
                       "total_bytes" := PInt 1000;
                       "_percent_str" := PStr " 50.0%" ]} in
  let reg : registry := {[ "job-1" := DownloadProgress_init "job-1" ]} in
  d !! "downloaded_bytes" = None
  ∧ (∃ q, decimal_float (PyStr.replace "%" "" (PyStr.strip " 50.0%"))
          = Some (Finite q) ∧ (q == 50)%Q)
  ∧ progress_hook (H := plain_externals) d "job-1" reg
    = (reg, Some (KeyError "downloaded_bytes")).
Proof.
  split; [reflexivity|]. split; [|vm_compute; reflexivity].
  eexists. split; [vm_compute; reflexivity|]. reflexivity.
Qed.

Section HookPhases.
Context `{Externals}.

(** C5, amended. On a downloading callback whose total is present and
    non-zero and whose downloaded count is present, the hook sets
    progress to downloaded / total * 100; on one whose total is absent,
    null or zero and that carries a percentage string, it sets progress
    to what the string, stripped and without its percent signs, parses
    to, and leaves progress unchanged when it does not parse; both set
    the status to downloading. On a finished callback it sets the
    status to processing, progress to 90 and the file name to the base
    name of the reported path. *)
Theorem progress_hook_phases (d : pydict) (id : string) (reg : registry)
    (j : DownloadProgress) :
  reg !! id = Some j →
  (∀ n t, d !! "status" = Some (PStr "downloading") →
     d !! "total_bytes" ≫= as_int = Some t → t ≠ 0 →
     d !! "downloaded_bytes" ≫= as_int = Some n →
     progress_hook d id reg
     = (<[id := set_status Downloading
                  (set_progress (Finite (inject_Z n / inject_Z t * 100)) j)]> reg,
        None))
  ∧ (∀ s, d !! "status" = Some (PStr "downloading") →
       total_known d = false →
       d !! "_percent_str" = Some (PStr s) →
       progress_hook d id reg
       = (<[id := set_status Downloading
                    match py_float (PyStr.replace "%" "" (PyStr.strip s)) with
                    | Some p => set_progress p j
                    | None => j
                    end]> reg,
          None))
  ∧ (∀ f, d !! "status" = Some (PStr "finished") →
       d !! "filename" = Some (PStr f) →
       progress_hook d id reg
       = (<[id := set_filename (path_name f)
                    (set_progress (Finite 90) (set_status Processing j))]> reg,
          None)).
Proof.
  intros Hj. unfold progress_hook, hook_body, dindex. rewrite Hj.
  split; [|split].
  - intros n t -> Ht Hne Hn. simpl.
    destruct (d !! "total_bytes") as [vt|] eqn:Et; [|done].
    destruct (d !! "downloaded_bytes") as [vn|] eqn:En; [|done].
    simpl in Ht, Hn.
    assert (total_known d = true) as ->.
    { unfold total_known, dget. rewrite Et. simpl.
      destruct vt as [|[]| |]; simplify_eq/=; try done.
      by apply negb_true_iff, Z.eqb_neq. }
    simpl. unfold percent_of. rewrite Hn, Ht.
    by apply Z.eqb_neq in Hne as ->.
  - intros s -> -> Hs. simpl. unfold dget. rewrite Hs. simpl.
    by destruct (py_float _).
  - intros f -> ->. reflexivity.
Qed.

End HookPhases.

Lemma progress_hook_phases_witness :
  let d : pydict := {[ "status" := PStr "downloading";
                       "total_bytes" := PInt 1000;
                       "downloaded_bytes" := PInt 250 ]} in
  let reg : registry := {[ "job-1" := DownloadProgress_init "job-1" ]} in
  reg !! "job-1" = Some (DownloadProgress_init "job-1")
  ∧ progress_hook (H := plain_externals) d "job-1" reg
    = (<["job-1" := set_status Downloading
                      (set_progress (Finite (inject_Z 250 / inject_Z 1000 * 100))
                         (DownloadProgress_init "job-1"))]> reg, None).
Proof.
  intros d reg. split; [reflexivity|].
  apply (proj1 (progress_hook_phases (H := plain_externals) d "job-1" reg
                  (DownloadProgress_init "job-1") eq_refl) 250 1000);
    [reflexivity | reflexivity | discriminate | reflexivity].
Defined.

(** *** Invariants along a worker run *)

Lemma job_at_alter id (P Q : DownloadProgress → Prop) f (reg : registry) :
  (∀ j, P j → Q (f j)) → job_at id P reg → job_at id Q (alter f id reg).
Proof.
  intros Hf (j & Hj & HP). exists (f j).
  rewrite lookup_alter, Hj. case_decide; [|done]. auto.
Qed.

Section WorkerFacts.
Context `{Externals}.
Variable P Pend : DownloadProgress → Prop.
Variable Good : pydict → Prop.
Hypothesis hook_keeps : ∀ d j, Good d → P j → P (hook_body d j).1.
Hypothesis running_ok : ∀ j, P j → Pend j.
Hypothesis completed_ok : ∀ j name t, P j → Pend (mark_completed name t j).
Hypothesis error_ok : ∀ j msg, P j → Pend (mark_error msg j).

(** Every registry of the trace, and the last one, satisfy [Pend] at
    [id]. *)
Lemma download_video_keeps W url quality id custom_format reg existing :
  (∀ o u, Forall Good (lc_events (ydl_download W o u))) →
  job_at id P reg →
  let r := download_video W url quality id custom_format reg existing in
  Forall (job_at id Pend) (w_trace r) ∧ job_at id Pend (w_reg r).
Proof.
  intros HW Hreg r. subst r. unfold download_video, try_block.
  destruct Hreg as (j & Hj & HP). rewrite Hj.
  destruct (download_phase_keeps P Good hook_keeps W
              (build_opts quality id custom_format) url id reg HW)
    as [Htr Hreg1]; [by exists j|].
  destruct (download_phase W _ url id reg) as [[tr reg1] e]. simpl in *.
  assert (Htr' : Forall (job_at id Pend) tr).
  { eapply Forall_impl; [done|]. intros ?. by apply job_at_weaken. }
  destruct e as [e|]; simpl.
  - split; [apply Forall_app; split; [done|repeat constructor]|];
      (eapply job_at_alter; [|done]; auto).
  - destruct (relocate W id existing) as [[[name temp'] downloads']|e]; simpl;
      (split; [apply Forall_app; split; [done|repeat constructor]|]);
      (eapply job_at_alter; [|done]; auto).
Qed.

End WorkerFacts.

Lemma percent_in_range n t :
  0 ≤ n ≤ t → t ≠ 0 → in_range (Finite (inject_Z n / inject_Z t * 100)).
Proof.
  intros Hn Ht. destruct t as [|p|p]; [done| |lia].
  unfold in_range, Qle, Qdiv, Qmult, Qinv, inject_Z. simpl. lia.
Qed.

(** C10, as stated: progress stays within [0, 100] whatever the hook is
    told. It does not: a downloading callback that reports 200 bytes
    downloaded of a total of 100 sets progress to 200. *)
Lemma progress_above_hundred :
  let d : pydict := {[ "status" := PStr "downloading";
                       "total_bytes" := PInt 100;
                       "downloaded_bytes" := PInt 200 ]} in
  let reg : registry := {[ "job-1" := DownloadProgress_init "job-1" ]} in
  ∃ q, (progress <$> (progress_hook (H := plain_externals) d "job-1" reg).1 !! "job-1")
       = Some (Finite q)
       ∧ (q == 200)%Q ∧ ¬ in_range (Finite q).
Proof.
  eexists. split; [vm_compute; reflexivity|]. split; [reflexivity|].
  intros [_ Hle]. vm_compute in Hle. by apply Hle.
Qed.

Section Bounds.
Context `{Externals}.

Lemma hook_body_in_range d j :
  bounded_event d → in_range (progress j) → in_range (progress (hook_body d j).1).
Proof.
  intros Hd Hj. unfold hook_body, dindex.
  destruct (d !! "status") as [st|] eqn:Est; [|done].
  repeat case_decide; subst; simpl; try done.
  - destruct (Hd Est) as [Hknown Hstr].
    destruct (total_known d) eqn:Ek.
    + specialize (Hknown eq_refl).
      destruct (d !! "downloaded_bytes") as [vn|]; [|done]. simpl.
      destruct (d !! "total_bytes") as [vt|]; [|done]. simpl.
      unfold percent_of.
      destruct (as_int vn) as [n|] eqn:En; [|done].
      destruct (as_int vt) as [t|] eqn:Et; [|done].
      destruct (t =? 0) eqn:E0; [done|]. simpl.
      apply Z.eqb_neq in E0. apply percent_in_range; [|done]. by apply Hknown.
    + specialize (Hstr eq_refl).
      case_bool_decide as Hp; [|done].
      destruct Hp as [v Hv]. unfold dget. rewrite Hv. simpl.
      destruct v as [| | |s]; try done.
      destruct (py_float _) as [p|] eqn:Ep; [|done]. simpl. eauto.
  - assert (in_range (Finite 90)) by (split; done).
    destruct (d !! "filename") as [[]|]; done.
Qed.

(** C10, amended. The hook and the worker do not clamp. Progress stays
    within [0, 100] after every hook call and after the final update of
    a run provided every downloading callback reports no more bytes
    downloaded than the total when the total is known and non-zero, and
    otherwise a percentage string, if any, that parses to a value
    within [0, 100]. *)
Theorem progress_within_bounds (W : world) (url quality : pyval) (id : string)
    (custom_format : pyval) (reg : registry) (existing : gset string) :
  job_at id (fun j => in_range (progress j)) reg →
  (∀ o u, Forall bounded_event (lc_events (ydl_download W o u))) →
  let r := download_video W url quality id custom_format reg existing in
  Forall (job_at id (fun j => in_range (progress j))) (w_trace r)
  ∧ job_at id (fun j => in_range (progress j)) (w_reg r).
Proof.
  intros Hreg HW.
  apply (download_video_keeps (fun j => in_range (progress j)) _ bounded_event);
    try done.
  intros d j. apply hook_body_in_range.
Qed.

End Bounds.

Lemma progress_within_bounds_witness :
  let d : pydict := {[ "status" := PStr "downloading";
                       "total_bytes" := PInt 1000;
                       "downloaded_bytes" := PInt 250 ]} in
  let W := {| ydl_download := fun _ _ => {| lc_events := [d]; lc_outcome := None |};
              temp_after := [ "job-1_video.mp4" ];
              move_error := None;
              unlink_fails := fun _ => false;
              now := 1000 |} in
  let reg : registry := {[ "job-1" := DownloadProgress_init "job-1" ]} in
  job_at "job-1" (fun j => in_range (progress j))
    (w_reg (download_video (H := plain_externals) W (PStr "https://youtu.be/x")
              (PStr "best") "job-1" PNone reg ∅)).
Proof.
  intros d W reg.
  apply (progress_within_bounds (H := plain_externals) W (PStr "https://youtu.be/x")
           (PStr "best") "job-1" PNone reg ∅).
  - exists (DownloadProgress_init "job-1"). split; [reflexivity|]. split; done.
  - intros o u. simpl. constructor; [|constructor].
    intros _. split.
    + intros _ n t Hn Ht. vm_compute in Hn, Ht.
      injection Hn as <-. injection Ht as <-. lia.
    + intros Hk. vm_compute in Hk. discriminate Hk.
Defined.

(** *** The record invariant *)

(** C1, as stated: after every transition [error] is set exactly in
    status error and never next to [file_path]. It is not: an error
    reported through the hook is never cleared, so when the library goes
    on and the download completes, the record is completed and carries
    both a [file_path] and an [error]. *)
Lemma error_survives_completion :
  let W := {| ydl_download := fun _ _ =>
                {| lc_events := [ {[ "status" := PStr "error";
                                     "error" := PStr "HTTP Error 503" ]};
                                  {[ "status" := PStr "finished";
                                     "filename" := PStr "temp/job-1_video.mp4" ]} ];
                   lc_outcome := None |};
              temp_after := [ "job-1_video.mp4" ];
              move_error := None;
              unlink_fails := fun _ => false;
              now := 1000 |} in
  let r := download_video (H := plain_externals) W (PStr "https://youtu.be/x")
             (PStr "best") "job-1" PNone
             {[ "job-1" := DownloadProgress_init "job-1" ]} ∅ in
  ∃ j, w_reg r !! "job-1" = Some j
       ∧ status j = Completed
       ∧ file_path j = Some "video.mp4"
       ∧ error j = Some "HTTP Error 503"
       ∧ ¬ job_invariant j.
Proof.
  eexists. split; [vm_compute; reflexivity|].
  repeat split; try reflexivity.
  intros (_ & _ & Hboth). apply Hboth. split; by eexists.
Qed.

Section Invariant.
Context `{Externals}.

Lemma hook_body_running_weak d j :
  running_weak j → running_weak (hook_body d j).1.
Proof.
  intros (Hf & Hc & He). unfold running_weak.
  hook_cases; simplify_eq/=; repeat split; eauto; done.
Qed.

Lemma hook_body_running_clean d j :
  no_error_phase d → running_clean j → running_clean (hook_body d j).1.
Proof.
  intros Hd (Hf & He & Hc & Hn). unfold running_clean, no_error_phase in *.
  hook_cases; simplify_eq/=; repeat split; eauto; done.
Qed.

(** C1, amended. After every hook call and after the final update of a
    run started on a fresh record, [file_path] is set exactly in status
    completed and a record in status error carries an [error]. When no
    callback reports the error phase, moreover, [error] is set exactly
    in status error and never next to [file_path]. *)
Theorem job_record_invariant (W : world) (url quality : pyval) (id : string)
    (custom_format : pyval) (reg : registry) (existing : gset string) :
  reg !! id = Some (DownloadProgress_init id) →
  let r := download_video W url quality id custom_format reg existing in
  Forall (job_at id job_invariant_weak) (w_trace r)
  ∧ job_at id job_invariant_weak (w_reg r)
  ∧ ((∀ o u, Forall no_error_phase (lc_events (ydl_download W o u))) →
     Forall (job_at id job_invariant) (w_trace r)
     ∧ job_at id job_invariant (w_reg r)).
Proof.
  intros Hreg r. subst r.
  assert (Hweak : job_at id running_weak reg).
  { exists (DownloadProgress_init id). by repeat split. }
  assert (Hclean : job_at id running_clean reg).
  { exists (DownloadProgress_init id). by repeat split. }
  cut ((Forall (job_at id job_invariant_weak)
          (w_trace (download_video W url quality id custom_format reg existing))
        ∧ job_at id job_invariant_weak
            (w_reg (download_video W url quality id custom_format reg existing)))
       ∧ ((∀ o u, Forall no_error_phase (lc_events (ydl_download W o u))) →
          Forall (job_at id job_invariant)
            (w_trace (download_video W url quality id custom_format reg existing))
          ∧ job_at id job_invariant
              (w_reg (download_video W url quality id custom_format reg existing))));
    [tauto|].
  split.
  - apply (download_video_keeps running_weak job_invariant_weak (fun _ => True)).
    + intros d j _. apply hook_body_running_weak.
    + intros j (Hf & Hc & He). split; [|done]. rewrite Hf.
      split; [by intros [? [=]] | done].
    + intros j name t _. unfold job_invariant_weak. simpl.
      split; [by split; eauto | done].
    + intros j msg (Hf & Hc & He). unfold job_invariant_weak. simpl.
      rewrite Hf. split; [split; [by intros [? [=]] | done] | eauto].
    + intros o u. by apply Forall_forall.
    + done.
  - intros HW.
    apply (download_video_keeps running_clean job_invariant no_error_phase).
    + apply hook_body_running_clean.
    + intros j (Hf & He & Hc & Hn). unfold job_invariant. rewrite Hf, He.
      repeat split; try done; by intros [? [=]] || by intros [[? [=]] _].
    + intros j name t (Hf & He & Hc & Hn). unfold job_invariant. simpl.
      rewrite He. repeat split; eauto; try done;
        by intros [? [=]] || by intros [_ [? [=]]].
    + intros j msg (Hf & He & Hc & Hn). unfold job_invariant. simpl.
      rewrite Hf. repeat split; eauto; try done;
        by intros [? [=]] || by intros [[? [=]] _].
    + done.
    + done.
Qed.

End Invariant.

Lemma job_record_invariant_witness :
  let W := {| ydl_download := fun _ _ =>
                {| lc_events := [ {[ "status" := PStr "downloading";
                                     "total_bytes" := PInt 1000;
                                     "downloaded_bytes" := PInt 250 ]};
                                  {[ "status" := PStr "finished";
                                     "filename" := PStr "temp/job-1_video.mp4" ]} ];
                   lc_outcome := None |};
              temp_after := [ "job-1_video.mp4" ];
              move_error := None;
              unlink_fails := fun _ => false;
              now := 1000 |} in
  let reg : registry := {[ "job-1" := DownloadProgress_init "job-1" ]} in
  let r := download_video (H := plain_externals) W (PStr "https://youtu.be/x")
             (PStr "best") "job-1" PNone reg ∅ in
  reg !! "job-1" = Some (DownloadProgress_init "job-1")
  ∧ length (w_trace r) = 3%nat
  ∧ Forall (job_at "job-1" job_invariant) (w_trace r).
Proof.
  intros W reg r. split; [reflexivity|]. split; [reflexivity|].
  destruct (job_record_invariant (H := plain_externals) W (PStr "https://youtu.be/x")
              (PStr "best") "job-1" PNone reg ∅ eq_refl) as (_ & _ & Hfull).
  apply Hfull. intros o u. simpl.
  repeat constructor; unfold no_error_phase; vm_compute; discriminate.
Defined.

(** *** The failure path *)

Lemma friendly_message_spec error_msg :
  (pattern_hit error_msg = false → friendly_message error_msg = error_msg)
  ∧ (pattern_hit error_msg = true → friendly_message error_msg ∈ canned_messages).
Proof.
  unfold pattern_hit, friendly_message, canned_messages.
  destruct (PyStr.contains "403" error_msg), (PyStr.contains "Forbidden" error_msg),
    (PyStr.contains "404" error_msg),
    (PyStr.contains "not found" (PyStr.lower error_msg)),
    (PyStr.contains "copyright" (PyStr.lower error_msg)),
    (PyStr.contains "private" (PyStr.lower error_msg)),
    (PyStr.contains "unavailable" (PyStr.lower error_msg)); simpl;
    (split; [done|]); try done; intros _;
    repeat (first [apply list_elem_of_here | apply list_elem_of_further]).
Qed.

Section Failure.
Context `{Externals}.

(** C7. Whenever the [try] block of the worker ends in an exception, the
    record's status becomes error and its [error] the message the
    handler derives from the raw one: the raw message itself when none
    of 403, Forbidden, 404, not found, copyright, private, unavailable
    occurs in it (the last four regardless of case), one of the five
    canned explanations when one does. Afterwards the temp directory
    holds no file with the job's prefix except those whose deletion
    failed, every other temp file is still there, and no exception
    leaves the worker. *)
Theorem worker_failure (W : world) (url quality : pyval) (id : string)
    (custom_format : pyval) (reg : registry) (existing : gset string)
    (j : DownloadProgress) (tr : list registry) (reg1 : registry) (e : exn) :
  reg !! id = Some j →
  try_block W url quality id custom_format reg existing = (tr, reg1, Raise e) →
  let r := download_video W url quality id custom_format reg existing in
  let raw := exn_str e in
  job_at id (fun j' => status j' = Error
                       ∧ error j' = Some (friendly_message raw)
                       ∧ file_path j' = file_path j) (w_reg r)
  ∧ (pattern_hit raw = false → friendly_message raw = raw)
  ∧ (pattern_hit raw = true → friendly_message raw ∈ canned_messages)
  ∧ (∀ n, n ∈ w_temp r ↔
          n ∈ temp_after W
          ∧ (String.prefix (id +:+ "_") n = false ∨ unlink_fails W n = true))
  ∧ w_downloads r = existing
  ∧ w_escaped r = None.
Proof.
  intros Hj Htry r raw. subst r raw.
  pose proof (friendly_message_spec (exn_str e)) as [Hraw Hcanned].
  assert (Hkeep : job_at id (fun j' => file_path j' = file_path j) reg1).
  { pose proof (download_phase_keeps (fun j' => file_path j' = file_path j)
                  (fun _ => True)) as Hph.
    unfold try_block in Htry.
    specialize (Hph (fun d j0 _ Hf => eq_trans
                       (ltac:(hook_cases; reflexivity)
                         : file_path (hook_body d j0).1 = file_path j0) Hf)
                    W (build_opts quality id custom_format) url id reg).
    destruct (download_phase W _ url id reg) as [[tr' reg'] r'].
    injection Htry as <- <- _. apply Hph.
    - intros o u. by apply Forall_forall.
    - by exists j. }
  unfold download_video. rewrite Hj, Htry. simpl.
  split; [|split; [done|split; [done|split; [|done]]]].
  - eapply job_at_alter; [|exact Hkeep]. intros j' Hf. by simpl.
  - intros n. unfold cleanup_partial.
    rewrite list_elem_of_In, filter_In, <- list_elem_of_In.
    rewrite orb_true_iff, negb_true_iff. done.
Qed.

End Failure.

Lemma worker_failure_witness :
  let W := {| ydl_download := fun _ _ =>
                {| lc_events := [ {[ "status" := PStr "downloading";
                                     "total_bytes" := PInt 1000;
                                     "downloaded_bytes" := PInt 250 ]} ];
                   lc_outcome := Some (DownloadError "ERROR: [youtube] x: Video unavailable") |};
              temp_after := [ "job-1_video.mp4.part"; "job-2_other.mp4.part" ];
              move_error := None;
              unlink_fails := fun _ => false;
              now := 1000 |} in
  let reg : registry := {[ "job-1" := DownloadProgress_init "job-1" ]} in
  let r := download_video (H := plain_externals) W (PStr "https://youtu.be/x")
             (PStr "best") "job-1" PNone reg ∅ in
  job_at "job-1"
    (fun j' => status j' = Error
               ∧ error j' = Some "Video is unavailable in your region or has been removed."
               ∧ file_path j' = None) (w_reg r)
  ∧ w_temp r = [ "job-2_other.mp4.part" ].
Proof.
  intros W reg r.
  destruct (worker_failure (H := plain_externals) W (PStr "https://youtu.be/x")
              (PStr "best") "job-1" PNone reg ∅ (DownloadProgress_init "job-1")
              _ _ _ eq_refl eq_refl) as (Hjob & _).
  split; [exact Hjob | reflexivity].
Defined.

(** ** Further properties *)

(** *** What a worker run does to the registry *)

Section RegistryFacts.
Context `{Externals}.
Variable id : string.
Variable R : registry → Prop.
Hypothesis hook_R : ∀ d reg, R reg → R (progress_hook d id reg).1.
Hypothesis alter_R : ∀ f reg, R reg → R (alter f id reg).

Lemma run_hooks_reg evs : ∀ reg, R reg → Forall R (run_hooks evs id reg).1.
Proof.
  induction evs as [|d evs IH]; intros reg Hreg; simpl; [constructor|].
  pose proof (hook_R d reg Hreg) as Hstep.
  destruct (progress_hook d id reg) as [reg' [e|]]; simpl in *.
  - by constructor.
  - specialize (IH reg' Hstep).
    destruct (run_hooks evs id reg') as [tr e']. simpl in *. by constructor.
Qed.

Lemma last_reg (tr : list registry) reg : Forall R tr → R reg → R (List.last tr reg).
Proof.
  intros Htr Hreg. induction Htr as [|r tr Hr Htr IH]; simpl; [done|].
  destruct tr; [done|]. apply IH.
Qed.

Lemma ydl_run_reg c reg :
  R reg → Forall R (ydl_run c id reg).1.1 ∧ R (ydl_run c id reg).1.2.
Proof.
  intros Hreg. unfold ydl_run.
  pose proof (run_hooks_reg (lc_events c) reg Hreg) as Htr.
  destruct (run_hooks (lc_events c) id reg) as [tr e]. simpl in *.
  split; [done|]. by apply last_reg.
Qed.

Lemma download_phase_reg W opts url reg :
  R reg →
  Forall R (download_phase W opts url id reg).1.1
  ∧ R (download_phase W opts url id reg).1.2.
Proof.
  intros Hreg. unfold download_phase.
  destruct (ydl_run_reg (ydl_download W opts url) reg Hreg) as [Htr1 Hreg1].
  destruct (ydl_run (ydl_download W opts url) id reg) as [[tr1 reg1] r1].
  simpl in *.
  destruct r1 as [[]|]; simpl; try done.
  case_match; simpl; [|done].
  destruct (ydl_run_reg (ydl_download W (retry_opts opts) url) reg1 Hreg1)
    as [Htr2 Hreg2].
  destruct (ydl_run (ydl_download W (retry_opts opts) url) id reg1)
    as [[tr2 reg2] r2].
  simpl in *. split; [|done]. by apply Forall_app.
Qed.

Lemma download_video_reg W url quality custom_format reg existing :
  R reg →
  let r := download_video W url quality id custom_format reg existing in
  Forall R (w_trace r) ∧ R (w_reg r).
Proof.
  intros Hreg r. subst r. unfold download_video, try_block.
  destruct (reg !! id); [|by split; [constructor|]].
  destruct (download_phase_reg W (build_opts quality id custom_format) url reg Hreg)
    as [Htr Hreg1].
  destruct (download_phase W _ url id reg) as [[tr reg1] e]. simpl in *.
  destruct e as [e|]; simpl.
  - split; [apply Forall_app; split; [done|repeat constructor]|]; by apply alter_R.
  - destruct (relocate W id existing) as [[[name temp'] downloads']|e]; simpl;
      (split; [apply Forall_app; split; [done|repeat constructor]|]);
      by apply alter_R.
Qed.

End RegistryFacts.

Lemma progress_hook_other `{Externals} d id id' (reg : registry) :
  id' ≠ id → (progress_hook d id reg).1 !! id' = reg !! id'.
Proof.
  intros Hne. unfold progress_hook. destruct (reg !! id) as [j|]; [|done].
  destruct (hook_body d j) as [j' e]. simpl. by rewrite lookup_insert_ne.
Qed.

Lemma progress_hook_dom `{Externals} d id (reg : registry) :
  dom (progress_hook d id reg).1 = dom reg.
Proof.
  unfold progress_hook. destruct (reg !! id) as [j|] eqn:Hj; [|done].
  destruct (hook_body d j) as [j' e]. simpl. rewrite dom_insert_L.
  assert (id ∈ dom reg) by (apply elem_of_dom; eauto). set_solver.
Qed.

Section WorkerRegistry.
Context `{Externals}.

(** X1. A worker run changes no record but its own, after any hook call
    as at the end, and neither adds nor removes a record. *)
Theorem worker_leaves_others (W : world) (url quality : pyval) (id id' : string)
    (custom_format : pyval) (reg : registry) (existing : gset string) :
  id' ≠ id →
  let r := download_video W url quality id custom_format reg existing in
  Forall (fun reg' => reg' !! id' = reg !! id' ∧ dom reg' = dom reg) (w_trace r)
  ∧ w_reg r !! id' = reg !! id'
  ∧ dom (w_reg r) = dom reg.
Proof.
  intros Hne.
  pose proof (download_video_reg id
                (fun reg' => reg' !! id' = reg !! id' ∧ dom reg' = dom reg)) as Hk.
  simpl in Hk.
  destruct (Hk) with (W := W) (url := url) (quality := quality)
    (custom_format := custom_format) (reg := reg) (existing := existing)
    as [Htr [Hl Hd]].
  - intros d reg0 [Hl Hd]. by rewrite progress_hook_other, progress_hook_dom.
  - intros f reg0 [Hl Hd]. rewrite lookup_alter_ne by done. by rewrite dom_alter_L.
  - done.
  - done.
Qed.

End WorkerRegistry.

(** *** How a worker run ends *)

Lemma relocate_ok `{Externals} W id existing name temp' downloads' :
  relocate W id existing = Ok (name, temp', downloads') →
  ∃ moved rest,
    glob_prefix id (temp_after W) = moved :: rest
    ∧ move_error W = None
    ∧ name = unique_filename existing
               (secure_filename (PyStr.replace (id +:+ "_") "" moved))
    ∧ temp' = List.filter (fun n => negb (String.eqb n moved)) (temp_after W)
    ∧ downloads' = {[ name ]} ∪ existing.
Proof.
  unfold relocate. destruct (glob_prefix id (temp_after W)) as [|moved rest]; [done|].
  destruct (move_error W); [done|]. intros [= <- <- <-]. by exists moved, rest.
Qed.

Lemma download_phase_job `{Externals} W opts url id (reg : registry) j :
  reg !! id = Some j →
  job_at id (fun _ => True) (download_phase W opts url id reg).1.2.
Proof.
  intros Hj.
  apply (download_phase_keeps (fun _ => True) (fun _ => True)); [done| |by exists j].
  intros o u. by apply Forall_forall.
Qed.

Section WorkerEnd.
Context `{Externals}.

(** X2. When the [try] block of the worker runs to its end, the record is
    completed with progress 100, its file name and file path are the
    final name, and [completed_at] is the time of the run; the final name
    did not exist under the downloads directory before and is the one
    name added to it, and the temp directory loses the moved file and
    nothing else. *)
Theorem worker_success (W : world) (url quality : pyval) (id : string)
    (custom_format : pyval) (reg : registry) (existing : gset string)
    (j : DownloadProgress) (tr : list registry) (reg1 : registry)
    (name : string) (temp' : list string) (downloads' : gset string) :
  reg !! id = Some j →
  try_block W url quality id custom_format reg existing
  = (tr, reg1, Ok (name, temp', downloads')) →
  let r := download_video W url quality id custom_format reg existing in
  job_at id (fun j' => status j' = Completed ∧ progress j' = Finite 100
                       ∧ filename j' = Some name ∧ file_path j' = Some name
                       ∧ completed_at j' = Some (now W)) (w_reg r)
  ∧ (name ∉ existing)
  ∧ w_downloads r = {[ name ]} ∪ existing
  ∧ (∃ moved, moved ∈ temp_after W
              ∧ String.prefix (id +:+ "_") moved = true
              ∧ (∀ n, n ∈ w_temp r ↔ (n ∈ temp_after W ∧ n ≠ moved)))
  ∧ w_escaped r = None.
Proof.
  intros Hj Htry r. subst r.
  assert (Hjob : job_at id (fun _ => True) reg1).
  { pose proof (download_phase_job W (build_opts quality id custom_format)
                  url id reg j Hj) as Hp.
    unfold try_block in Htry.
    destruct (download_phase W _ url id reg) as [[tr' reg'] r'].
    by injection Htry as <- <- _. }
  assert (Hrel : relocate W id existing = Ok (name, temp', downloads')).
  { unfold try_block in Htry.
    destruct (download_phase W _ url id reg) as [[tr' reg'] [e|]];
      by injection Htry as _ _ Hr. }
  apply relocate_ok in Hrel as (moved & rest & Hglob & Hmove & Hname & Htemp & Hdl).
  unfold download_video. rewrite Hj, Htry. simpl.
  split; [|split; [|split; [done|split; [|done]]]].
  - eapply job_at_alter; [|exact Hjob]. intros j' _. by simpl.
  - rewrite Hname. apply unique_filename_fresh.
  - assert (Hin : In moved (glob_prefix id (temp_after W))) by (rewrite Hglob; by left).
    apply filter_In in Hin as [Hin Hpre].
    exists moved. split; [by apply list_elem_of_In|]. split; [done|].
    intros n. rewrite Htemp, list_elem_of_In, filter_In, <- list_elem_of_In.
    rewrite negb_true_iff, String.eqb_neq. done.
Qed.

(** X3. Whatever the library, the hooks and the file system do, a worker
    run on a registered job ends with the record in status completed or
    error, so that it no longer counts against the concurrency limit, and
    no exception leaves the worker. *)
Theorem worker_ends_terminal (W : world) (url quality : pyval) (id : string)
    (custom_format : pyval) (reg : registry) (existing : gset string)
    (j : DownloadProgress) :
  reg !! id = Some j →
  let r := download_video W url quality id custom_format reg existing in
  job_at id (fun j' => (status j' = Completed ∨ status j' = Error)
                       ∧ is_active (status j') = false) (w_reg r)
  ∧ w_escaped r = None.
Proof.
  intros Hj r. subst r. unfold download_video, try_block. rewrite Hj.
  pose proof (download_phase_job W (build_opts quality id custom_format)
                url id reg j Hj) as Hjob.
  destruct (download_phase W _ url id reg) as [[tr reg1] e]. simpl in *.
  destruct e as [e|]; simpl.
  - split; [|done]. eapply job_at_alter; [|exact Hjob]. intros j' _. simpl. auto.
  - destruct (relocate W id existing) as [[[name temp'] downloads']|e]; simpl;
      (split; [|done]); (eapply job_at_alter; [|exact Hjob]);
      intros j' _; simpl; auto.
Qed.

(** X4. Along a run started on a fresh record, after every hook call and
    at the end, [completed_at] is set exactly when the status is
    completed. *)
Theorem completed_at_iff_completed (W : world) (url quality : pyval) (id : string)
    (custom_format : pyval) (reg : registry) (existing : gset string) :
  reg !! id = Some (DownloadProgress_init id) →
  let r := download_video W url quality id custom_format reg existing in
  Forall (job_at id (fun j => is_Some (completed_at j) ↔ status j = Completed))
         (w_trace r)
  ∧ job_at id (fun j => is_Some (completed_at j) ↔ status j = Completed) (w_reg r).
Proof.
  intros Hreg.
  apply (download_video_keeps
           (fun j => completed_at j = None ∧ status j ≠ Completed) _
           (fun _ => True)).
  - intros d j _ [Hc Hs]. hook_cases; simplify_eq/=; by split.
  - intros j [Hc Hs]. rewrite Hc. split; [by intros [? [=]] | done].
  - intros j name t _. simpl. split; eauto.
  - intros j msg [Hc Hs]. simpl. rewrite Hc. split; [by intros [? [=]] | done].
  - intros o u. by apply Forall_forall.
  - exists (DownloadProgress_init id). by repeat split.
Qed.

(** X5. A [DownloadError] of the first library call whose message holds
    403 or Forbidden is followed by one more call with the retry options,
    and a retry that returns, with a file found and moved, completes the
    job; any other [DownloadError] ends the run in status error with the
    message derived from it, without a second call's hooks. *)
Theorem retry_only_on_forbidden (W : world) (url quality : pyval) (id : string)
    (custom_format : pyval) (reg : registry) (existing : gset string)
    (j : DownloadProgress) (tr1 : list registry) (reg1 : registry) (m : string) :
  reg !! id = Some j →
  ydl_run (ydl_download W (build_opts quality id custom_format) url) id reg
  = (tr1, reg1, Some (DownloadError m)) →
  let r := download_video W url quality id custom_format reg existing in
  if PyStr.contains "403" m || PyStr.contains "Forbidden" m then
    ∀ tr2 reg2,
      ydl_run (ydl_download W (retry_opts (build_opts quality id custom_format)) url)
              id reg1 = (tr2, reg2, None) →
      glob_prefix id (temp_after W) ≠ [] → move_error W = None →
      job_at id (fun j' => status j' = Completed) (w_reg r)
      ∧ w_trace r = tr1 ++ tr2 ++ [w_reg r]
  else
    job_at id (fun j' => status j' = Error
                         ∧ error j' = Some (friendly_message m)) (w_reg r)
    ∧ w_trace r = tr1 ++ [w_reg r].
Proof.
  intros Hj Hrun r. subst r.
  pose proof (download_phase_job W (build_opts quality id custom_format)
                url id reg j Hj) as Hjob.
  unfold download_video, try_block. rewrite Hj.
  unfold download_phase in *. rewrite Hrun in *.
  destruct (PyStr.contains "403" m || PyStr.contains "Forbidden" m).
  - intros tr2 reg2 Hrun2 Hglob Hmove. rewrite Hrun2 in *. simpl in *.
    unfold relocate. rewrite Hmove.
    destruct (glob_prefix id (temp_after W)) as [|moved rest]; [done|]. simpl.
    split; [|by rewrite <- app_assoc].
    eapply job_at_alter; [|exact Hjob]. by intros j' _.
  - simpl in *. split; [|done].
    eapply job_at_alter; [|exact Hjob]. by intros j' _.
Qed.

(** X6. When the library returns but the temp directory holds no file
    with the job's prefix, the run ends in status error and the record
    reads the canned not-found text: the worker's own message, [Downloaded
    file not found...], holds one of the patterns. *)
Theorem missing_file_reported_as_not_found (W : world) (url quality : pyval)
    (id : string) (custom_format : pyval) (reg : registry)
    (existing : gset string) (j : DownloadProgress) :
  reg !! id = Some j →
  (download_phase W (build_opts quality id custom_format) url id reg).2 = None →
  glob_prefix id (temp_after W) = [] →
  let r := download_video W url quality id custom_format reg existing in
  job_at id (fun j' => status j' = Error
      ∧ error j' = Some "Video not found (404). The video may be private, deleted, or the URL is incorrect.")
    (w_reg r)
  ∧ w_downloads r = existing.
Proof.
  intros Hj Hphase Hglob r. subst r.
  pose proof (download_phase_job W (build_opts quality id custom_format)
                url id reg j Hj) as Hjob.
  unfold download_video, try_block, relocate. rewrite Hj, Hglob.
  destruct (download_phase W _ url id reg) as [[tr reg1] e]. simpl in *. subst e.
  simpl. split; [|done].
  eapply job_at_alter; [|exact Hjob]. intros j' _. by simpl.
Qed.

End WorkerEnd.

Lemma worker_leaves_others_witness :
  "job-2" ≠ "job-1"
  ∧ w_reg (sample_run sample_world) !! "job-2" = sample_registry !! "job-2"
  ∧ dom (w_reg (sample_run sample_world)) = dom sample_registry.
Proof.
  assert (Hne : "job-2" ≠ "job-1") by discriminate.
  split; [exact Hne|].
  exact (proj2 (worker_leaves_others (H := plain_externals) sample_world
                  (PStr "https://youtu.be/x") (PStr "best") "job-1" "job-2" PNone
                  sample_registry {[ "video.mp4" ]} Hne)).
Defined.

Lemma worker_success_witness :
  job_at "job-1"
    (fun j' => status j' = Completed ∧ progress j' = Finite 100
               ∧ filename j' = Some "video_1.mp4" ∧ file_path j' = Some "video_1.mp4"
               ∧ completed_at j' = Some 1000)
    (w_reg (sample_run sample_world))
  ∧ w_temp (sample_run sample_world) = [ "job-2_other.mp4.part" ].
Proof.
  split; [|reflexivity].
  exact (proj1 (worker_success (H := plain_externals) sample_world
                  (PStr "https://youtu.be/x") (PStr "best") "job-1" PNone
                  sample_registry {[ "video.mp4" ]} (DownloadProgress_init "job-1")
                  _ _ "video_1.mp4" _ _ eq_refl eq_refl)).
Defined.

Lemma worker_ends_terminal_witness :
  job_at "job-1"
    (fun j' => (status j' = Completed ∨ status j' = Error)
               ∧ is_active (status j') = false)
    (w_reg (sample_run sample_empty_world)).
Proof.
  exact (proj1 (worker_ends_terminal (H := plain_externals) sample_empty_world
                  (PStr "https://youtu.be/x") (PStr "best") "job-1" PNone
                  sample_registry {[ "video.mp4" ]} (DownloadProgress_init "job-1")
                  eq_refl)).
Defined.

Lemma completed_at_iff_completed_witness :
  length (w_trace (sample_run sample_world)) = 3%nat
  ∧ Forall (job_at "job-1" (fun j => is_Some (completed_at j) ↔ status j = Completed))
           (w_trace (sample_run sample_world)).
Proof.
  split; [reflexivity|].
  exact (proj1 (completed_at_iff_completed (H := plain_externals) sample_world
                  (PStr "https://youtu.be/x") (PStr "best") "job-1" PNone
                  sample_registry {[ "video.mp4" ]} eq_refl)).
Defined.

Lemma retry_only_on_forbidden_witness :
  job_at "job-1" (fun j' => status j' = Completed)
    (w_reg (sample_run sample_retry_world))
  ∧ length (w_trace (sample_run sample_retry_world)) = 3%nat.
Proof.
  split; [|reflexivity].
  pose proof (retry_only_on_forbidden (H := plain_externals) sample_retry_world
                (PStr "https://youtu.be/x") (PStr "best") "job-1" PNone
                sample_registry {[ "video.mp4" ]} (DownloadProgress_init "job-1")
                [] sample_registry "HTTP Error 403: Forbidden" eq_refl eq_refl)
    as Hretry.
  simpl in Hretry.
  destruct (Hretry _ _ eq_refl) as [Hjob _]; [discriminate | reflexivity | exact Hjob].
Defined.

Lemma missing_file_reported_as_not_found_witness :
  job_at "job-1"
    (fun j' => status j' = Error
      ∧ error j' = Some "Video not found (404). The video may be private, deleted, or the URL is incorrect.")
    (w_reg (sample_run sample_empty_world)).
Proof.
  exact (proj1 (missing_file_reported_as_not_found (H := plain_externals)
                  sample_empty_world (PStr "https://youtu.be/x") (PStr "best")
                  "job-1" PNone sample_registry {[ "video.mp4" ]}
                  (DownloadProgress_init "job-1") eq_refl eq_refl eq_refl)).
Defined.

(** *** The stored message and the final name *)

(** X7. Deriving the stored message is idempotent: each canned
    explanation holds the pattern that selects it, so a message that went
    through the handler once comes out unchanged the second time. *)
Theorem friendly_message_idempotent (error_msg : string) :
  friendly_message (friendly_message error_msg) = friendly_message error_msg.
Proof.
  destruct (friendly_message_spec error_msg) as [Hraw Hcanned].
  destruct (pattern_hit error_msg).
  - specialize (Hcanned eq_refl). unfold canned_messages in Hcanned.
    repeat (apply elem_of_cons in Hcanned as [-> | Hcanned];
            [vm_compute; reflexivity|]).
    by apply elem_of_nil in Hcanned.
  - by rewrite !(Hraw eq_refl).
Qed.

Lemma append_assoc s1 s2 s3 : (s1 +:+ s2) +:+ s3 = s1 +:+ (s2 +:+ s3).
Proof.
  induction s1 as [|c s1 IH]; [done|].
  change (String c ((s1 +:+ s2) +:+ s3) = String c (s1 +:+ (s2 +:+ s3))).
  by rewrite IH.
Qed.

Lemma append_nil_r s : s +:+ "" = s.
Proof.
  induction s as [|c s IH]; [done|].
  change (String c (s +:+ "") = String c s). by rewrite IH.
Qed.

Lemma rsplit1_right sep s l r :
  PyStr.rsplit1 sep s = Some (l, r) → PyStr.rsplit1 sep r = None.
Proof.
  revert l r. induction s as [|c s IH]; intros l r; simpl; [done|].
  destruct (PyStr.rsplit1 sep s) as [[l' r']|] eqn:E.
  - intros [= <- <-]. by eapply IH.
  - case_decide; [|done]. by intros [= <- <-].
Qed.

Lemma rsplit1_build sep l r :
  PyStr.rsplit1 sep r = None →
  PyStr.rsplit1 sep (l +:+ String sep r) = Some (l, r).
Proof.
  intros Hr. induction l as [|c l IH]; simpl.
  - rewrite Hr. by case_decide.
  - by rewrite IH.
Qed.

Lemma unique_loop_extension fuel : ∀ existing name c r stem ext,
  unique_loop fuel existing name c = Some r →
  PyStr.rsplit1 "." name = Some (stem, ext) →
  ∃ suffix, PyStr.rsplit1 "." r = Some (stem +:+ suffix, ext).
Proof.
  induction fuel as [|fuel IH]; intros existing name c r stem ext; simpl; [done|].
  case_bool_decide.
  - intros Hloop Hsplit.
    destruct (IH existing (next_name name c) (c + 1) r
                (stem +:+ "_" +:+ PyStr.of_Z c) ext Hloop) as [suffix Hs].
    + unfold next_name. rewrite Hsplit.
      assert (stem +:+ "_" +:+ PyStr.of_Z c +:+ "." +:+ ext
              = (stem +:+ "_" +:+ PyStr.of_Z c) +:+ String "." ext) as ->
        by (by rewrite !append_assoc).
      apply rsplit1_build. by eapply rsplit1_right.
    + exists (("_" +:+ PyStr.of_Z c) +:+ suffix).
      rewrite Hs. by rewrite !append_assoc.
  - intros [= <-] Hsplit. exists "". by rewrite Hsplit, append_nil_r.
Qed.

(** X8. The final name never exists yet under the downloads directory;
    it is the sanitized name itself when that one is free; and renaming
    keeps the extension: a name with a dot comes out with the same text
    after its last dot, the part before it only grown at its end. *)
Theorem unique_filename_properties (existing : gset string) (name : string) :
  (unique_filename existing name ∉ existing)
  ∧ (name ∉ existing → unique_filename existing name = name)
  ∧ (∀ stem ext, PyStr.rsplit1 "." name = Some (stem, ext) →
       ∃ suffix, PyStr.rsplit1 "." (unique_filename existing name)
                 = Some (stem +:+ suffix, ext)).
Proof.
  split; [apply unique_filename_fresh|]. split.
  - intros Hfree. unfold unique_filename. simpl.
    by rewrite bool_decide_eq_false_2.
  - intros stem ext Hsplit.
    eapply unique_loop_extension; [apply unique_loop_terminates | done].
Qed.

(** *** Submission and polling *)

Lemma filter_length_perm {A} (f : A → bool) (l l' : list A) :
  l ≡ₚ l' → length (List.filter f l) = length (List.filter f l').
Proof.
  induction 1 as [|x l l' _ IH|x y l|l l' l'' _ IH1 _ IH2]; simpl.
  - done.
  - destruct (f x); simpl; by rewrite IH.
  - destruct (f x), (f y); done.
  - by rewrite IH1.
Qed.

Lemma active_count_delete (reg : registry) id :
  active_count (delete id reg) ≤ active_count reg.
Proof.
  unfold active_count. destruct (reg !! id) as [j|] eqn:Hj.
  - rewrite <- (filter_length_perm _ _ _ (map_to_list_delete reg id j Hj)).
    simpl. destruct (is_active (status j)); simpl; lia.
  - by rewrite delete_id.
Qed.

Lemma active_count_insert (reg : registry) id j :
  active_count (<[id := j]> reg)
  = active_count (delete id reg) + (if is_active (status j) then 1 else 0).
Proof.
  rewrite <- insert_delete_eq. unfold active_count.
  rewrite (filter_length_perm _ _ _
             (map_to_list_insert (delete id reg) id j (lookup_delete_eq reg id))).
  simpl. destruct (is_active (status j)); simpl; lia.
Qed.

(** X9. A submission never touches a record stored under another
    identifier than the one it draws; a submission that is turned away,
    with whatever answer, leaves the registry as it was and starts no
    worker, and one that is answered 200 stores a fresh record and starts
    its worker with the url, the quality (['best'] when none is given)
    and the custom format of the body. *)
Theorem start_download_effects (data : option pydict) (fresh_id : string)
    (reg : registry) :
  let r := start_download data fresh_id reg in
  (∀ id', id' ≠ fresh_id → r.1.2 !! id' = reg !! id')
  ∧ (resp_code r.1.1 ≠ 200 → r.1.2 = reg ∧ r.2 = None)
  ∧ (resp_code r.1.1 = 200 →
     ∃ body, data = Some body
       ∧ r.1.2 = <[fresh_id := DownloadProgress_init fresh_id]> reg
       ∧ r.2 = Some {| ta_url := dget body "url";
                       ta_quality := dget_or body "quality" (PStr "best");
                       ta_download_id := fresh_id;
                       ta_custom_format := dget body "custom_format" |}).
Proof.
  unfold start_download. destruct data as [body|]; simpl; [|by repeat split].
  destruct (negb (truthy (dget body "url"))); simpl; [by repeat split|].
  destruct (MAX_CONCURRENT_DOWNLOADS <=? active_count reg); simpl;
    [by repeat split|].
  split; [|split; [done|]].
  - intros id' Hne. by rewrite lookup_insert_ne.
  - intros _. by exists body.
Qed.

(** X10. Submissions made one after the other keep the bound: after a
    submission the number of active records is at most three, or at most
    what it was before if that was more. *)
Theorem start_download_keeps_bound (data : option pydict) (fresh_id : string)
    (reg : registry) :
  active_count (start_download data fresh_id reg).1.2
  ≤ Z.max MAX_CONCURRENT_DOWNLOADS (active_count reg).
Proof.
  unfold start_download. destruct data as [body|]; simpl; [|lia].
  destruct (negb (truthy (dget body "url"))); simpl; [lia|].
  destruct (MAX_CONCURRENT_DOWNLOADS <=? active_count reg) eqn:Hc; simpl; [lia|].
  apply Z.leb_gt in Hc. rewrite active_count_insert. simpl.
  pose proof (active_count_delete reg fresh_id). lia.
Qed.

(** X11. A job that was just admitted can be polled: the progress route
    answers 200 with status starting, progress 0 and no file name, error
    or completion time, and the file route answers 400, the file not
    being ready. *)
Theorem admitted_job_is_pollable (isoformat : Z → string) (data : pydict)
    (fresh_id : string) (reg : registry) (existing : gset string) :
  truthy (dget data "url") = true →
  active_count reg < MAX_CONCURRENT_DOWNLOADS →
  let reg' := (start_download (Some data) fresh_id reg).1.2 in
  get_progress isoformat fresh_id reg'
  = Reply 200 (JObj [ ("download_id", JStr fresh_id);
                      ("status", JStr "starting");
                      ("progress", JFloat (Finite 0));
                      ("filename", JNull); ("error", JNull);
                      ("completed_at", JNull) ])
  ∧ download_file fresh_id reg' existing
    = FileError 400 "File not ready for download".
Proof.
  intros Hurl Hc. unfold start_download. rewrite Hurl. simpl.
  apply Z.leb_gt in Hc. rewrite Hc. simpl.
  unfold get_progress, download_file. by rewrite lookup_insert_eq.
Qed.

Lemma admitted_job_is_pollable_witness :
  let data : pydict := {[ "url" := PStr "https://youtu.be/x" ]} in
  reply_code (get_progress (fun _ => "") "job-3"
                (start_download (Some data) "job-3" sample_registry).1.2) = 200
  ∧ download_file "job-3" (start_download (Some data) "job-3" sample_registry).1.2 ∅
    = FileError 400 "File not ready for download".
Proof.
  intros data.
  destruct (admitted_job_is_pollable (fun _ => "") data "job-3" sample_registry ∅)
    as [Hp Hf]; [reflexivity | vm_compute; reflexivity |].
  split; [by rewrite Hp | exact Hf].
Defined.

(** X12. The file route hands out a file only for a registered job whose
    status is completed, whose file path is set and whose file exists,
    and then under the job's file name; every other request is answered
    with an error. *)
Theorem download_file_only_completed (id : string) (reg : registry)
    (existing : gset string) (path : string) (download_name : option string) :
  download_file id reg existing = SendFile path download_name →
  ∃ j, reg !! id = Some j ∧ status j = Completed ∧ file_path j = Some path
       ∧ path ∈ existing ∧ download_name = filename j.
Proof.
  unfold download_file. destruct (reg !! id) as [j|]; [|done].
  destruct (file_path j) as [p|] eqn:Hp; [|done].
  repeat case_bool_decide; try done.
  intros [= <- <-]. exists j. repeat split; done.
Qed.

Lemma download_file_only_completed_witness :
  ∃ j, w_reg (sample_run sample_world) !! "job-1" = Some j
       ∧ status j = Completed ∧ file_path j = Some "video_1.mp4".
Proof.
  destruct (download_file_only_completed "job-1" (w_reg (sample_run sample_world))
              (w_downloads (sample_run sample_world)) "video_1.mp4"
              (Some "video_1.mp4") eq_refl) as (j & Hj & Hs & Hp & _).
  exists j. split; [exact Hj|]. split; [exact Hs|exact Hp].
Defined.

Section ServeAfterRun.
Context `{Externals}.

(** X13. After a worker run whose [try] block ran to its end the file
    route serves the final file under the final name; after a run whose
    [try] block raised it answers 400, the job never having got a file
    path. *)
Theorem finished_job_is_served (W : world) (url quality : pyval) (id : string)
    (custom_format : pyval) (reg : registry) (existing : gset string)
    (tr : list registry) (reg1 : registry)
    (res : result (string * list string * gset string)) :
  reg !! id = Some (DownloadProgress_init id) →
  try_block W url quality id custom_format reg existing = (tr, reg1, res) →
  let r := download_video W url quality id custom_format reg existing in
  download_file id (w_reg r) (w_downloads r)
  = match res with
    | Ok (name, _, _) => SendFile name (Some name)
    | Raise _ => FileError 400 "File not ready for download"
    end.
Proof.
  intros Hj Htry r. subst r.
  assert (Hjob : job_at id (fun j' => file_path j' = None) reg1).
  { pose proof (download_phase_keeps (fun j' => file_path j' = None)
                  (fun _ => True)) as Hph.
    unfold try_block in Htry.
    specialize (Hph (fun d j0 _ Hf => eq_trans
                       (ltac:(hook_cases; reflexivity)
                         : file_path (hook_body d j0).1 = file_path j0) Hf)
                    W (build_opts quality id custom_format) url id reg).
    destruct (download_phase W _ url id reg) as [[tr' reg'] r'].
    injection Htry as <- <- _. apply Hph.
    - intros o u. by apply Forall_forall.
    - by exists (DownloadProgress_init id). }
  destruct Hjob as (j1 & Hj1 & Hf1).
  unfold download_video. rewrite Hj, Htry.
  destruct res as [[[name temp'] downloads']|e]; simpl.
  - assert (Hrel : relocate W id existing = Ok (name, temp', downloads')).
    { unfold try_block in Htry.
      destruct (download_phase W _ url id reg) as [[tr' reg'] [e|]];
        by injection Htry as _ _ Hr. }
    apply relocate_ok in Hrel as (_ & _ & _ & _ & _ & _ & ->).
    unfold download_file. rewrite lookup_alter_eq, Hj1. simpl.
    rewrite bool_decide_eq_true_2 by set_solver. done.
  - unfold download_file. rewrite lookup_alter_eq, Hj1. simpl. by rewrite Hf1.
Qed.

End ServeAfterRun.

Lemma finished_job_is_served_witness :
  download_file "job-1" (w_reg (sample_run sample_world))
    (w_downloads (sample_run sample_world))
  = SendFile "video_1.mp4" (Some "video_1.mp4")
  ∧ download_file "job-1" (w_reg (sample_run sample_empty_world))
      (w_downloads (sample_run sample_empty_world))
    = FileError 400 "File not ready for download".
Proof.
  split.
  - exact (finished_job_is_served (H := plain_externals) sample_world
             (PStr "https://youtu.be/x") (PStr "best") "job-1" PNone
             sample_registry {[ "video.mp4" ]} _ _
             (Ok ("video_1.mp4", _, _)) eq_refl eq_refl).
  - exact (finished_job_is_served (H := plain_externals) sample_empty_world
             (PStr "https://youtu.be/x") (PStr "best") "job-1" PNone
             sample_registry {[ "video.mp4" ]} _ _ (Raise _) eq_refl eq_refl).
Defined.

(** *** Listing and health routes *)

(** X14. The listing route answers with exactly one entry per record of
    the registry, and the entries are the bodies the progress route
    answers for the registered identifiers. *)
Theorem list_downloads_entries (isoformat : Z → string) (reg : registry) :
  ∃ entries,
    list_downloads isoformat reg = Reply 200 (JObj [("downloads", JList entries)])
    ∧ length entries = size reg
    ∧ (∀ e, e ∈ entries ↔
            ∃ id, is_Some (reg !! id)
                  ∧ get_progress isoformat id reg = Reply 200 e).
Proof.
  eexists. split; [reflexivity|]. split.
  - by rewrite length_fmap, length_map_to_list.
  - intros e. rewrite list_elem_of_fmap. split.
    + intros ([id j] & -> & Hin). apply elem_of_map_to_list in Hin.
      exists id. unfold get_progress. rewrite Hin. eauto.
    + intros (id & [j Hj] & Hp). unfold get_progress in Hp. rewrite Hj in Hp.
      injection Hp as <-. exists (id, j). split; [done|].
      by apply elem_of_map_to_list.
Qed.

Lemma active_count_le_size (reg : registry) :
  active_count reg ≤ Z.of_nat (size reg).
Proof.
  unfold active_count. rewrite <- (length_map_to_list reg).
  apply inj_le, filter_length_le.
Qed.

Section Health.
Context `{Externals}.

(** X15. The number the health route reports as [active_downloads] is
    the number of all records, finished ones included: it is never below
    the number of active records, and a worker run, however it ends,
    leaves the answer of the route unchanged. *)
Theorem health_counts_every_record (cwd : string) (W : world)
    (url quality : pyval) (id : string) (custom_format : pyval)
    (reg : registry) (existing : gset string) :
  (∃ rest, health_check cwd reg
           = Reply 200 (JObj (("status", JStr "healthy")
                              :: ("active_downloads", JInt (Z.of_nat (size reg)))
                              :: rest)))
  ∧ active_count reg ≤ Z.of_nat (size reg)
  ∧ health_check cwd
      (w_reg (download_video W url quality id custom_format reg existing))
    = health_check cwd reg.
Proof.
  split; [by eexists|]. split; [apply active_count_le_size|].
  unfold health_check. do 4 f_equal.
  destruct (download_video_reg id (fun reg' => dom reg' = dom reg))
    with (W := W) (url := url) (quality := quality)
         (custom_format := custom_format) (reg := reg) (existing := existing)
    as [_ Hdom].
  - intros d reg0 Hd. by rewrite progress_hook_dom.
  - intros f reg0 Hd. by rewrite dom_alter_L.
  - done.
  - f_equal. f_equal. by rewrite <- !size_dom, Hdom.
Qed.

End Health.

(** *** The format listing *)

#[local] Instance by_key_trans {A} : Transitive (@by_key A).
Proof. intros a b c. unfold by_key. lia. Qed.

Lemma insert_desc_perm {A} k (x : A) l : insert_desc k x l ≡ₚ (k, x) :: l.
Proof.
  induction l as [|[k' y] l IH]; simpl; [done|].
  destruct (k' <=? k); [done|]. rewrite IH. apply perm_swap.
Qed.

Lemma sort_desc_perm {A} (l : list (Z * A)) : sort_desc l ≡ₚ l.
Proof.
  induction l as [|[k x] l IH]; simpl; [done|].
  by rewrite insert_desc_perm, IH.
Qed.

Lemma insert_desc_hd {A} (a : Z * A) k x l :
  HdRel by_key a l → by_key a (k, x) → HdRel by_key a (insert_desc k x l).
Proof.
  intros Hl Ha. destruct l as [|[k' y] l]; simpl; [by constructor|].
  destruct (k' <=? k); constructor; [done|]. by inversion Hl.
Qed.

Lemma insert_desc_sorted {A} k (x : A) l :
  Sorted by_key l → Sorted by_key (insert_desc k x l).
Proof.
  induction 1 as [|[k' y] l Hs IH Hhd]; simpl; [by repeat constructor|].
  destruct (k' <=? k) eqn:Hk.
  - apply Z.leb_le in Hk. repeat constructor; done.
  - apply Z.leb_gt in Hk. constructor; [done|].
    apply insert_desc_hd; [done|]. unfold by_key. simpl. lia.
Qed.

Lemma sort_desc_sorted {A} (l : list (Z * A)) : StronglySorted by_key (sort_desc l).
Proof.
  apply Sorted_StronglySorted; [apply _|].
  induction l as [|[k x] l IH]; simpl; [constructor|]. by apply insert_desc_sorted.
Qed.

(** Stability: the entries of one key keep their order. *)
Lemma insert_desc_stable {A} h k (x : A) l :
  List.filter (fun kx => kx.1 =? h) (insert_desc k x l)
  = List.filter (fun kx => kx.1 =? h) ((k, x) :: l).
Proof.
  induction l as [|[k' y] l IH]; simpl; [done|].
  destruct (k' <=? k) eqn:Hk; [done|]. apply Z.leb_gt in Hk.
  simpl in *. rewrite IH.
  destruct (k' =? h) eqn:E1, (k =? h) eqn:E2; try done.
  apply Z.eqb_eq in E1, E2. lia.
Qed.

Lemma sort_desc_stable {A} h (l : list (Z * A)) :
  List.filter (fun kx => kx.1 =? h) (sort_desc l)
  = List.filter (fun kx => kx.1 =? h) l.
Proof.
  induction l as [|[k x] l IH]; simpl; [done|].
  rewrite insert_desc_stable. simpl. by rewrite IH.
Qed.

Lemma height_key_height_of (f : pydict) k :
  height_key f = Ok k → k = height_of f.
Proof.
  unfold height_key, height_of, dget_or, dget.
  destruct (f !! "height") as [[|[]|z|s]|]; simpl; try by intros [= <-].
  - destruct (Z.eqb_spec z 0) as [->|Hz]; simpl; by intros [= <-].
  - destruct (negb (String.eqb s "")); [done|by intros [= <-]].
Qed.

Lemma with_keys_spec (l : list pydict) keyed :
  with_keys l = Ok keyed → keyed = (fun f => (height_of f, f)) <$> l.
Proof.
  revert keyed. induction l as [|f l IH]; intros keyed; simpl.
  - by intros [= <-].
  - destruct (height_key f) as [k|e] eqn:Hk; simpl; [|done].
    destruct (with_keys l) as [rest|e]; simpl; [|done].
    intros [= <-]. by rewrite (IH rest eq_refl), (height_key_height_of f k Hk).
Qed.

Lemma with_keys_typed (l : list pydict) :
  Forall height_typed l → with_keys l = Ok ((fun f => (height_of f, f)) <$> l).
Proof.
  induction 1 as [|f l Hf _ IH]; simpl; [done|].
  rewrite IH. simpl.
  assert (height_key f = Ok (height_of f)) as ->; [|done].
  destruct Hf as [Hf|[z Hf]]; unfold height_key, height_of, dget_or, dget in *;
    destruct (f !! "height") as [v|]; simplify_eq/=; try done.
  destruct (Z.eqb_spec z 0) as [->|Hz]; by simpl.
Qed.

Lemma first_match_some test l f :
  first_match test l = Ok (Some f) →
  ∃ l1 l2, l = l1 ++ f :: l2 ∧ Forall (fun g => test g = Ok false) l1
           ∧ test f = Ok true.
Proof.
  induction l as [|g l IH]; simpl; [done|].
  destruct (test g) as [[]|] eqn:Hg; [| |done].
  - intros [= <-]. by exists [], l.
  - intros (l1 & l2 & -> & Hl1 & Hf)%IH. exists (g :: l1), l2. by repeat constructor.
Qed.

Lemma first_match_none test l :
  first_match test l = Ok None → Forall (fun g => test g = Ok false) l.
Proof.
  induction l as [|g l IH]; simpl; [by constructor|].
  destruct (test g) as [[]|] eqn:Hg; [done| |done]. intros ?%IH. by constructor.
Qed.

Lemma first_match_raise test l e :
  first_match test l = Raise e →
  ∃ l1 g l2, l = l1 ++ g :: l2 ∧ Forall (fun g => test g = Ok false) l1
             ∧ test g = Raise e.
Proof.
  induction l as [|g l IH]; simpl; [done|].
  destruct (test g) as [[]|e'] eqn:Hg; [done| |].
  - intros (l1 & g' & l2 & -> & Hl1 & Hf)%IH.
    exists (g :: l1), g', l2. by repeat constructor.
  - intros [= <-]. by exists [], g, l.
Qed.

Lemma format_info_present (f : pydict) :
  format_info f !! "height" = Some (dget f "height")
  ∧ format_info f !! "vcodec" = Some (dget f "vcodec")
  ∧ format_info f !! "acodec" = Some (dget f "acodec").
Proof. repeat split; reflexivity. Qed.

Lemma kept_format_height (info : info_dict) (row : pydict) :
  row ∈ kept_formats info → row !! "height" = Some (dget row "height").
Proof.
  unfold kept_formats. intros (f & -> & _)%list_elem_of_fmap.
  destruct (format_info_present f) as (Hh & _). unfold dget at 1. by rewrite Hh.
Qed.

Lemma is_best_video_true (row : pydict) :
  row !! "height" = Some (dget row "height") →
  is_best_video row = Ok true → recommendable row.
Proof.
  intros Hrow. unfold is_best_video, dget_or. rewrite Hrow. simpl.
  destruct (dget row "height") as [|[]|z|s] eqn:Hh; simpl; try done.
  intros [= [Hz Hv]%andb_true_iff]. split.
  - exists z. split; [done|]. by apply Z.leb_le.
  - by apply negb_true_iff, bool_decide_eq_false in Hv.
Qed.

Lemma recommendable_is_best_video (row : pydict) :
  row !! "height" = Some (dget row "height") →
  recommendable row → is_best_video row = Ok true.
Proof.
  intros Hrow [(z & Hz & Hle) Hv]. unfold is_best_video, dget_or.
  rewrite Hrow, Hz. simpl. f_equal. apply andb_true_iff. split.
  - by apply Z.leb_le.
  - by apply negb_true_iff, bool_decide_eq_false.
Qed.

Lemma list_formats_sorted (info : info_dict) :
  (∃ e, list_formats info = Raise e)
  ∨ ∃ l, list_formats info = Ok l
         ∧ fl_formats l
           = (fun kx => kx.2)
               <$> sort_desc ((fun f => (height_of f, f)) <$> kept_formats info)
         ∧ first_match is_best_video (fl_formats l) = Ok (fl_best_video l)
         ∧ first_match (fun f => Ok (is_best_audio f)) (fl_formats l)
           = Ok (fl_best_audio l).
Proof.
  unfold list_formats.
  assert (Hk : match info_formats info with
               | Some fs => format_info <$> List.filter has_codec fs
               | None => []
               end = kept_formats info).
  { unfold kept_formats. by destruct (info_formats info). }
  rewrite Hk.
  destruct (with_keys (kept_formats info)) as [keyed|e] eqn:Hkeys; simpl;
    [|left; by eexists].
  apply with_keys_spec in Hkeys as ->.
  destruct (first_match is_best_video _) as [bv|e] eqn:Hbv; simpl;
    [|left; by eexists].
  destruct (first_match (fun f => Ok (is_best_audio f)) _) as [ba|e] eqn:Hba; simpl;
    [|left; by eexists].
  right. eexists. split; [reflexivity|]. simpl. by rewrite Hbv, Hba.
Qed.

Lemma keyed_sorted (L : list (Z * pydict)) :
  Forall (fun kx => kx.1 = height_of kx.2) L →
  StronglySorted by_key L → StronglySorted by_height (L.*2).
Proof.
  intros Hk Hs. induction Hs as [|a l Hs IH Ha]; simpl; [constructor|].
  inversion Hk as [|? ? Hka Hkl]; subst. constructor; [by apply IH|].
  apply Forall_fmap, Forall_forall. intros b Hb. simpl.
  rewrite Forall_forall in Ha, Hkl. specialize (Ha b Hb). specialize (Hkl b Hb).
  unfold by_key, by_height in *. lia.
Qed.

Lemma keyed_filter h (L : list (Z * pydict)) :
  Forall (fun kx => kx.1 = height_of kx.2) L →
  List.filter (fun f => height_of f =? h) ((fun kx => kx.2) <$> L)
  = (fun kx => kx.2) <$> List.filter (fun kx => kx.1 =? h) L.
Proof.
  induction 1 as [|[k f] L Hk _ IH]; [done|].
  simpl in Hk. subst k. simpl.
  destruct (height_of f =? h); simpl; [f_equal|]; exact IH.
Qed.

Lemma decorated_keyed (rows : list pydict) :
  Forall (fun kx : Z * pydict => kx.1 = height_of kx.2)
         ((fun f => (height_of f, f)) <$> rows).
Proof. apply Forall_fmap, Forall_forall. done. Qed.

Lemma sorted_keyed (rows : list pydict) :
  Forall (fun kx : Z * pydict => kx.1 = height_of kx.2)
         (sort_desc ((fun f => (height_of f, f)) <$> rows)).
Proof.
  apply Forall_forall. intros kx Hin. rewrite sort_desc_perm in Hin.
  pose proof (decorated_keyed rows) as Hd. rewrite Forall_forall in Hd. by apply Hd.
Qed.

Lemma sorted_rows_perm rows : sorted_rows rows ≡ₚ rows.
Proof.
  unfold sorted_rows. rewrite sort_desc_perm, <- list_fmap_compose.
  by rewrite list_fmap_id.
Qed.

Lemma sorted_rows_sorted rows : StronglySorted by_height (sorted_rows rows).
Proof.
  apply keyed_sorted; [apply sorted_keyed|apply sort_desc_sorted].
Qed.

Lemma sorted_rows_stable h rows :
  List.filter (fun f => height_of f =? h) (sorted_rows rows)
  = List.filter (fun f => height_of f =? h) rows.
Proof.
  unfold sorted_rows. rewrite keyed_filter.
  - rewrite sort_desc_stable, <- keyed_filter by apply decorated_keyed.
    by rewrite <- list_fmap_compose, list_fmap_id.
  - apply sorted_keyed.
Qed.

Lemma first_match_total (t : pydict → bool) l :
  ∃ r, first_match (fun f => Ok (t f)) l = Ok r.
Proof.
  induction l as [|f l [r IH]]; simpl; [by eexists|].
  destruct (t f); by eexists.
Qed.

(** X16. When the listing succeeds, its formats are the kept formats in
    another order, no format lost or doubled, sorted by height from high
    to low with an absent height counting as 0, and formats of one height
    stay in the order the library gave them. *)
Theorem listing_is_stable_sort (info : info_dict) (l : format_listing) :
  list_formats info = Ok l →
  fl_formats l ≡ₚ kept_formats info
  ∧ StronglySorted by_height (fl_formats l)
  ∧ ∀ h, List.filter (fun f => height_of f =? h) (fl_formats l)
         = List.filter (fun f => height_of f =? h) (kept_formats info).
Proof.
  intros Hl. destruct (list_formats_sorted info) as [[e He]|(l' & Hl' & Hf & _)];
    [congruence|].
  rewrite Hl in Hl'. injection Hl' as <-.
  change (fl_formats l = sorted_rows (kept_formats info)) in Hf. rewrite Hf.
  split; [apply sorted_rows_perm|]. split; [apply sorted_rows_sorted|].
  intros h. apply sorted_rows_stable.
Qed.

(** X17. When the listing succeeds, the recommended video is a kept
    format of height 1080 or more with a video codec and no such format
    is higher, or it is null and no kept format qualifies; the
    recommended audio is a kept format with an audio codec and no video
    codec, or it is null and there is none. *)
Theorem recommended_picks (info : info_dict) (l : format_listing) :
  list_formats info = Ok l →
  match fl_best_video l with
  | Some f => f ∈ kept_formats info ∧ recommendable f
              ∧ ∀ g, g ∈ kept_formats info → recommendable g →
                     height_of g ≤ height_of f
  | None => ∀ g, g ∈ kept_formats info → ¬ recommendable g
  end
  ∧ match fl_best_audio l with
    | Some f => f ∈ kept_formats info ∧ is_best_audio f = true
    | None => ∀ g, g ∈ kept_formats info → is_best_audio g = false
    end.
Proof.
  intros Hl.
  destruct (list_formats_sorted info) as [[e He]|(l' & Hl' & Hf & Hbv & Hba)];
    [congruence|].
  rewrite Hl in Hl'. injection Hl' as <-.
  change (fl_formats l = sorted_rows (kept_formats info)) in Hf.
  rewrite Hf in Hbv, Hba.
  pose proof (sorted_rows_perm (kept_formats info)) as Hperm.
  pose proof (sorted_rows_sorted (kept_formats info)) as Hsorted.
  split.
  - destruct (fl_best_video l) as [f|].
    + apply first_match_some in Hbv as (l1 & l2 & Hsplit & Hl1 & Hf1).
      assert (Hin : f ∈ kept_formats info).
      { rewrite <- Hperm, Hsplit. set_solver. }
      split; [done|]. split.
      { apply is_best_video_true; [by eapply kept_format_height|done]. }
      intros g Hg Hrec. rewrite <- Hperm, Hsplit in Hg.
      apply recommendable_is_best_video in Hrec; [|by eapply kept_format_height;
        rewrite <- Hperm, Hsplit].
      apply elem_of_app in Hg as [Hg|Hg].
      * rewrite Forall_forall in Hl1. specialize (Hl1 g Hg). congruence.
      * apply elem_of_cons in Hg as [->|Hg]; [done|].
        rewrite Hsplit in Hsorted.
        apply StronglySorted_app_1_r, StronglySorted_cons in Hsorted as [Hall _].
        rewrite Forall_forall in Hall. by apply Hall.
    + apply first_match_none in Hbv. rewrite Forall_forall in Hbv.
      intros g Hg Hrec.
      apply recommendable_is_best_video in Hrec; [|by eapply kept_format_height].
      rewrite <- Hperm in Hg. specialize (Hbv g Hg). congruence.
  - destruct (fl_best_audio l) as [f|].
    + apply first_match_some in Hba as (l1 & l2 & Hsplit & _ & Hf1).
      split; [|by injection Hf1]. rewrite <- Hperm, Hsplit. set_solver.
    + apply first_match_none in Hba. rewrite Forall_forall in Hba.
      intros g Hg. rewrite <- Hperm in Hg. specialize (Hba g Hg). by injection Hba.
Qed.

Lemma listing_is_stable_sort_witness :
  ∃ l, list_formats sample_info = Ok l
       ∧ (fun f => dget f "format_id") <$> fl_formats l
         = [PStr "137"; PStr "136"; PStr "140"]
       ∧ fl_formats l ≡ₚ kept_formats sample_info.
Proof.
  eexists. split; [vm_compute; reflexivity|]. split; [vm_compute; reflexivity|].
  exact (proj1 (listing_is_stable_sort sample_info _ eq_refl)).
Defined.

Lemma recommended_picks_witness :
  ∃ l, list_formats sample_info = Ok l
       ∧ (fun f => dget f "format_id") <$> fl_best_video l = Some (PStr "137")
       ∧ (fun f => dget f "format_id") <$> fl_best_audio l = Some (PStr "140")
       ∧ ∀ g, g ∈ kept_formats sample_info → recommendable g →
              height_of g ≤ 1080.
Proof.
  eexists. split; [vm_compute; reflexivity|].
  split; [vm_compute; reflexivity|]. split; [vm_compute; reflexivity|].
  exact (proj2 (proj2 (proj1 (recommended_picks sample_info _ eq_refl)))).
Defined.

Lemma list_formats_typed (info : info_dict) :
  Forall height_typed (kept_formats info) →
  list_formats info
  = match first_match is_best_video (sorted_rows (kept_formats info)) with
    | Raise e => Raise e
    | Ok best_video =>
        match first_match (fun f => Ok (is_best_audio f))
                (sorted_rows (kept_formats info)) with
        | Raise e => Raise e
        | Ok best_audio =>
            Ok {| fl_title := dget (info_fields info) "title";
                  fl_formats := sorted_rows (kept_formats info);
                  fl_best_video := best_video;
                  fl_best_audio := best_audio |}
        end
    end.
Proof.
  intros Htyped. unfold list_formats.
  assert (Hk : match info_formats info with
               | Some fs => format_info <$> List.filter has_codec fs
               | None => []
               end = kept_formats info).
  { unfold kept_formats. by destruct (info_formats info). }
  rewrite Hk, (with_keys_typed _ Htyped). reflexivity.
Qed.

Lemma is_best_video_raises (row : pydict) e :
  row !! "height" = Some (dget row "height") → height_typed row →
  is_best_video row = Raise e → dget row "height" = PNone.
Proof.
  intros Hrow [Hn|[z Hz]]; [done|].
  unfold is_best_video, dget_or. rewrite Hrow, Hz. done.
Qed.

Lemma is_best_video_of_none (row : pydict) :
  row !! "height" = Some (dget row "height") → dget row "height" = PNone →
  ∃ e, is_best_video row = Raise e.
Proof.
  intros Hrow Hn. unfold is_best_video, dget_or. rewrite Hrow, Hn. by eexists.
Qed.

(** X18. For metadata whose heights are numbers or absent, the listing
    route answers 500 instead of a listing exactly when some kept format
    has no height and no kept format can be recommended as best video:
    the search for the best video then reaches the format without height
    and fails on the comparison. In every other case it answers 200. *)
Theorem listing_fails_on_missing_height (body : pydict)
    (extract : pyval → result info_dict) (info : info_dict) :
  truthy (dget body "url") = true →
  extract (dget body "url") = Ok info →
  Forall height_typed (kept_formats info) →
  let code := reply_code (get_available_formats (Some body) extract) in
  (code = 500 ↔
   (∀ g, g ∈ kept_formats info → ¬ recommendable g)
   ∧ ∃ g, g ∈ kept_formats info ∧ dget g "height" = PNone)
  ∧ (code = 200 ∨ code = 500).
Proof.
  intros Hurl Hext Htyped code. subst code.
  unfold get_available_formats. rewrite Hurl, Hext. simpl.
  change (mbind list_formats (Ok info)) with (list_formats info).
  rewrite (list_formats_typed info Htyped).
  pose proof (sorted_rows_perm (kept_formats info)) as Hperm.
  pose proof (sorted_rows_sorted (kept_formats info)) as Hsorted.
  assert (Hpresent : ∀ g, g ∈ sorted_rows (kept_formats info) →
                          g !! "height" = Some (dget g "height")).
  { intros g Hg. rewrite Hperm in Hg. by eapply kept_format_height. }
  destruct (first_match is_best_video (sorted_rows (kept_formats info)))
    as [bv|e] eqn:Hbv.
  - destruct (first_match_total is_best_audio (sorted_rows (kept_formats info)))
      as [ba ->]. simpl. split; [|by left].
    split; [done|]. intros [Hnone (g & Hg & Hh)]. exfalso.
    destruct bv as [f|].
    + apply first_match_some in Hbv as (l1 & l2 & Hsplit & _ & Hf).
      assert (Hin : f ∈ sorted_rows (kept_formats info)) by (rewrite Hsplit; set_solver).
      apply (Hnone f); [by rewrite <- Hperm|].
      apply is_best_video_true; [by apply Hpresent|done].
    + apply first_match_none in Hbv. rewrite Forall_forall in Hbv.
      rewrite <- Hperm in Hg.
      destruct (is_best_video_of_none g (Hpresent g Hg) Hh) as [e He].
      specialize (Hbv g Hg). congruence.
  - simpl. split; [|by right]. split; [intros _|done].
    apply first_match_raise in Hbv as (l1 & g & l2 & Hsplit & Hl1 & Hg).
    assert (Hin : g ∈ sorted_rows (kept_formats info)) by (rewrite Hsplit; set_solver).
    assert (Hh : dget g "height" = PNone).
    { eapply is_best_video_raises; [by apply Hpresent| |done].
      rewrite Forall_forall in Htyped. apply Htyped. by rewrite <- Hperm. }
    split; [|exists g; split; [by rewrite <- Hperm|done]].
    intros g' Hg' Hrec. rewrite <- Hperm in Hg'.
    pose proof (recommendable_is_best_video g' (Hpresent g' Hg') Hrec) as Htrue.
    destruct Hrec as [(z & Hz & Hle) _].
    rewrite Hsplit in Hg'. apply elem_of_app in Hg' as [Hg'|Hg'].
    + rewrite Forall_forall in Hl1. specialize (Hl1 g' Hg'). congruence.
    + apply elem_of_cons in Hg' as [->|Hg']; [congruence|].
      rewrite Hsplit in Hsorted.
      apply StronglySorted_app_1_r, StronglySorted_cons in Hsorted as [Hall _].
      rewrite Forall_forall in Hall. specialize (Hall g' Hg').
      unfold by_height, height_of in Hall. rewrite Hz, Hh in Hall. simpl in Hall. lia.
Qed.

Lemma listing_fails_on_missing_height_witness :
  reply_code (get_available_formats (Some sample_body) (fun _ => Ok sample_info_low))
  = 500
  ∧ reply_code (get_available_formats (Some sample_body) (fun _ => Ok sample_info))
    = 200.
Proof.
  split; [|vm_compute; reflexivity].
  apply (listing_fails_on_missing_height sample_body (fun _ => Ok sample_info_low)
           sample_info_low eq_refl eq_refl).
  - set (rows := kept_formats sample_info_low). vm_compute in rows. subst rows.
    repeat (constructor;
            [unfold height_typed; vm_compute;
             first [left; reflexivity | right; eexists; reflexivity]|]).
    constructor.
  - split.
    + intros g Hg [(z & Hz & Hle) _]. vm_compute in Hg.
      repeat (apply elem_of_cons in Hg as [->|Hg];
              [vm_compute in Hz; first [discriminate Hz | injection Hz as <-; lia]|]).
      by apply elem_of_nil in Hg.
    + eexists. split; [apply list_elem_of_further, list_elem_of_here|].
      vm_compute. reflexivity.
Defined.

(** *** The sweep block *)

Lemma size_delete_present {A} (m : gmap string A) i :
  is_Some (m !! i) → Z.of_nat (size (delete i m)) + 1 = Z.of_nat (size m).
Proof.
  intros Hi. rewrite (map_size_delete_Some _ _ Hi).
  pose proof (map_size_ne_0_lookup_2 m i Hi). lia.
Qed.

Lemma lookup_foldl_delete {A} (ids : list string) : ∀ (m : gmap string A) id,
  foldl (fun r i => delete i r) m ids !! id
  = if bool_decide (id ∈ ids) then None else m !! id.
Proof.
  induction ids as [|i ids IH]; intros m id; simpl; [done|].
  rewrite IH. destruct (decide (id = i)) as [->|Hne].
  - rewrite lookup_delete_eq. rewrite (bool_decide_eq_true_2 (i ∈ i :: ids)) by set_solver.
    by case_bool_decide.
  - rewrite lookup_delete_ne by done.
    case_bool_decide as H1; case_bool_decide as H2; set_solver.
Qed.

Lemma foldl_step {A B} (f : A → B → A) a x l :
  foldl f a (x :: l) = foldl f (f a x) l.
Proof. reflexivity. Qed.

Section SweepJobs.
Variable E : sweep_env.

Lemma sweep_jobs_removed l : ∀ dir n removed,
  (foldl (sweep_job E (se_now E - max_age_seconds)) (dir, n, removed) l).2
  = removed ++ (List.filter (fun kv => expired E kv.2) l).*1.
Proof.
  induction l as [|[id j] l IH]; intros dir n removed; simpl.
  - by rewrite app_nil_r.
  - unfold expired at 1. simpl. destruct (completed_at j) as [t|]; [|apply IH].
    destruct (t <? se_now E - max_age_seconds); [|apply IH].
    destruct (match file_path j with
              | Some p => if bool_decide (is_Some (dir !! p))
                               && negb (se_unlink_fails E p)
                          then (delete p dir, n + 1) else (dir, n)
              | None => (dir, n)
              end) as [dir' n'].
    rewrite IH. simpl. by rewrite <- app_assoc.
Qed.

Lemma sweep_jobs_dir l : ∀ (dir : gmap string (bool * Z)) n removed,
  let r := foldl (sweep_job E (se_now E - max_age_seconds)) (dir, n, removed) l in
  (∀ k v, r.1.1 !! k = Some v → dir !! k = Some v)
  ∧ (∀ k v, dir !! k = Some v →
       (∀ kv, kv ∈ l → expired E kv.2 = true → file_path kv.2 ≠ Some k) →
       r.1.1 !! k = Some v)
  ∧ r.1.2 + Z.of_nat (size r.1.1) = n + Z.of_nat (size dir).
Proof.
  induction l as [|[id j] l IH]; intros dir n removed.
  - simpl. repeat split; eauto.
  - rewrite foldl_step.
    assert (Hstep : ∃ dir' n' removed',
              sweep_job E (se_now E - max_age_seconds) (dir, n, removed) (id, j)
              = (dir', n', removed')
              ∧ (∀ k v, dir' !! k = Some v → dir !! k = Some v)
              ∧ (∀ k v, dir !! k = Some v →
                   (expired E j = true → file_path j ≠ Some k) →
                   dir' !! k = Some v)
              ∧ n' + Z.of_nat (size dir') = n + Z.of_nat (size dir)).
    { unfold sweep_job, expired. simpl.
      destruct (completed_at j) as [t|]; [|by repeat eexists].
      destruct (t <? se_now E - max_age_seconds); [|by repeat eexists].
      destruct (file_path j) as [p|]; [|by repeat eexists].
      case_bool_decide as Hp; simpl; [|by repeat eexists].
      destruct (se_unlink_fails E p); simpl; [by repeat eexists|].
      do 3 eexists. split; [reflexivity|]. split; [|split].
      - intros k v Hk. apply lookup_delete_Some in Hk. tauto.
      - intros k v Hk Hne. rewrite lookup_delete_ne; [done|].
        intros ->. by apply Hne.
      - pose proof (size_delete_present dir p Hp). lia. }
    destruct Hstep as (dir' & n' & removed' & -> & Hsub & Hkeep & Hcount).
    destruct (IH dir' n' removed') as (IHsub & IHkeep & IHcount).
    split; [|split].
    + intros k v Hk. eauto.
    + intros k v Hk Hfree. apply IHkeep.
      * apply Hkeep; [done|]. intros He. apply (Hfree (id, j)); [set_solver|done].
      * intros kv Hin. apply Hfree. set_solver.
    + lia.
Qed.

Lemma sweep_files_spec l : ∀ (dir : gmap string (bool * Z)) n,
  NoDup (l.*1) → (∀ k v, (k, v) ∈ l → dir !! k = Some v) →
  let r := foldl (sweep_file E) (dir, n) l in
  (∀ k v, r.1 !! k = Some v →
     dir !! k = Some v ∧ ((k, v) ∈ l → stale E (k, v) = false))
  ∧ (∀ k v, dir !! k = Some v → stale E (k, v) = false → r.1 !! k = Some v)
  ∧ r.2 + Z.of_nat (size r.1) = n + Z.of_nat (size dir).
Proof.
  induction l as [|[k0 [f0 m0]] l IH]; intros dir n Hnd Hpres; simpl.
  - repeat split; eauto. intros Hin. by apply elem_of_nil in Hin.
  - apply NoDup_cons in Hnd as [Hk0 Hnd]. simpl in Hk0.
    assert (Hp0 : dir !! k0 = Some (f0, m0)) by (apply Hpres; set_solver).
    assert (Hother : ∀ k v, (k, v) ∈ l → k ≠ k0).
    { intros k v Hin ->. apply Hk0. apply list_elem_of_fmap. by exists (k0, v). }
    change (f0 && (max_age_seconds <? se_now E - m0) && negb (se_unlink_fails E k0))
      with (stale E (k0, (f0, m0))).
    destruct (stale E (k0, (f0, m0))) eqn:Hs.
    + destruct (IH (delete k0 dir) (n + 1) Hnd) as (IH1 & IH2 & IH3).
      { intros k v Hin. rewrite lookup_delete_ne; [apply Hpres; set_solver|].
        intros <-. by eapply Hother. }
      split; [|split].
      * intros k v Hk. destruct (IH1 k v Hk) as [Hd Hl].
        apply lookup_delete_Some in Hd as [Hne Hd]. split; [done|].
        intros [[= -> ->]|Hin]%elem_of_cons; [done|by apply Hl].
      * intros k v Hk Hst. apply IH2; [|done].
        rewrite lookup_delete_ne; [done|]. intros <-.
        rewrite Hp0 in Hk. injection Hk as <-. congruence.
      * pose proof (size_delete_present dir k0 (mk_is_Some _ _ Hp0)). lia.
    + destruct (IH dir n Hnd) as (IH1 & IH2 & IH3).
      { intros k v Hin. apply Hpres. set_solver. }
      split; [|split; [done|done]].
      intros k v Hk. destruct (IH1 k v Hk) as [Hd Hl]. split; [done|].
      intros [[= -> ->]|Hin]%elem_of_cons; [done|by apply Hl].
Qed.

(** X19. The sweep block removes from the registry exactly the records
    whose [completed_at] lies more than 24 hours back; a record that never
    completed, active or failed, is never removed, and no record is
    changed. *)
Theorem sweep_registry (s : server) (id : string) :
  active_downloads (cleanup_block E s).2 !! id
  = match active_downloads s !! id with
    | Some j => if expired E j then None else Some j
    | None => None
    end.
Proof.
  unfold cleanup_block.
  pose proof (sweep_jobs_removed (map_to_list (active_downloads s))
                (download_dir s) 0 []) as Hrem.
  destruct (foldl _ (download_dir s, 0, []) (map_to_list (active_downloads s)))
    as [[dir1 count1] to_remove].
  destruct (foldl (sweep_file E) (dir1, count1) (map_to_list dir1)) as [dir2 count2].
  simpl in *. subst to_remove. rewrite lookup_foldl_delete.
  destruct (active_downloads s !! id) as [j|] eqn:Hj.
  - destruct (expired E j) eqn:He.
    + rewrite bool_decide_eq_true_2; [done|].
      apply list_elem_of_fmap. exists (id, j). split; [done|].
      apply list_elem_of_In, filter_In. split; [|done].
      by apply list_elem_of_In, elem_of_map_to_list.
    + rewrite bool_decide_eq_false_2; [done|].
      intros ([id' j'] & -> & Hin)%list_elem_of_fmap.
      apply list_elem_of_In, filter_In in Hin as [Hin He'].
      apply list_elem_of_In, elem_of_map_to_list in Hin. simpl in *. congruence.
  - by case_bool_decide.
Qed.

(** X20. After the sweep block every entry of the downloads directory is
    an entry it had before, unchanged, and is not a regular file older
    than 24 hours whose deletion succeeds; an entry that is no such file
    and is not the file of a record completed more than 24 hours ago is
    still there; and the temp directory holds only files whose deletion
    failed. *)
Theorem sweep_directory (s : server) :
  let s' := (cleanup_block E s).2 in
  (∀ k v, download_dir s' !! k = Some v →
     download_dir s !! k = Some v ∧ stale E (k, v) = false)
  ∧ (∀ k v, download_dir s !! k = Some v → stale E (k, v) = false →
       (∀ id j, active_downloads s !! id = Some j → expired E j = true →
                file_path j ≠ Some k) →
       download_dir s' !! k = Some v)
  ∧ temp_dir s' = List.filter (se_unlink_fails E) (temp_dir s).
Proof.
  unfold cleanup_block.
  pose proof (sweep_jobs_dir (map_to_list (active_downloads s))
                (download_dir s) 0 []) as (Hsub & Hkeep & _).
  destruct (foldl _ (download_dir s, 0, []) (map_to_list (active_downloads s)))
    as [[dir1 count1] to_remove].
  pose proof (sweep_files_spec (map_to_list dir1) dir1 count1
                (NoDup_fst_map_to_list dir1)) as Hfiles.
  destruct (foldl (sweep_file E) (dir1, count1) (map_to_list dir1)) as [dir2 count2].
  simpl in *.
  destruct Hfiles as (H1 & H2 & _); [by intros k v ?%elem_of_map_to_list|].
  split; [|split; [|done]].
  - intros k v Hk. destruct (H1 k v Hk) as [Hd Hst]. split; [by apply Hsub|].
    apply Hst. by apply elem_of_map_to_list.
  - intros k v Hk Hst Hfree. apply H2; [|done]. apply Hkeep; [done|].
    intros [id j] Hin He. apply elem_of_map_to_list in Hin. by apply (Hfree id j).
Qed.

(** X21. The number the sweep block reports as [cleaned_files] is the
    number of entries that left the downloads directory; the files
    removed from the temp directory are not counted. *)
Theorem sweep_count (s : server) :
  ∃ n, (cleanup_block E s).1
       = Json 200 [ ("success", PBool true); ("cleaned_files", PInt n);
                    ("message", PStr ("Cleaned up " +:+ PyStr.of_Z n +:+ " old files")) ]
       ∧ n = Z.of_nat (size (download_dir s))
             - Z.of_nat (size (download_dir (cleanup_block E s).2)).
Proof.
  unfold cleanup_block.
  pose proof (sweep_jobs_dir (map_to_list (active_downloads s))
                (download_dir s) 0 []) as (_ & _ & Hc1).
  destruct (foldl _ (download_dir s, 0, []) (map_to_list (active_downloads s)))
    as [[dir1 count1] to_remove].
  pose proof (sweep_files_spec (map_to_list dir1) dir1 count1
                (NoDup_fst_map_to_list dir1)) as Hfiles.
  destruct (foldl (sweep_file E) (dir1, count1) (map_to_list dir1)) as [dir2 count2].
  simpl in *.
  destruct Hfiles as (_ & _ & Hc2); [by intros k v ?%elem_of_map_to_list|].
  eexists. split; [reflexivity|]. lia.
Qed.

End SweepJobs.

(** *** Routing and format selection *)

Lemma contains_slash_cons c s :
  PyStr.contains "/" (String c s) = false →
  c ≠ "/"%char ∧ PyStr.contains "/" s = false.
Proof.
  change (PyStr.contains "/" (String c s))
    with (String.prefix "/" (String c s) || PyStr.contains "/" s).
  change (String.prefix "/" (String c s))
    with (if Ascii.ascii_dec "/" c then String.prefix "" s else false).
  destruct (Ascii.ascii_dec "/" c) as [<-|Hc]; [by destruct s|].
  intros Hs. split; [|done]. intros ->. by apply Hc.
Qed.

Lemma split_cons_other c s :
  c ≠ "/"%char →
  PyStr.split "/" (String c s)
  = match PyStr.split "/" s with
    | x :: xs => String c x :: xs
    | [] => [String c ""]
    end.
Proof.
  intros Hc.
  change (PyStr.split "/" (String c s))
    with (if decide (c = "/"%char) then "" :: PyStr.split "/" s
          else match PyStr.split "/" s with
               | x :: xs => String c x :: xs
               | [] => [String c ""]
               end).
  by case_decide.
Qed.

Lemma split_no_sep (s : string) :
  PyStr.contains "/" s = false → PyStr.split "/" s = [s].
Proof.
  induction s as [|c s IH]; [done|].
  intros [Hc Hs]%contains_slash_cons.
  by rewrite (split_cons_other c s Hc), (IH Hs).
Qed.

Lemma split_app_sep (s rest : string) :
  PyStr.contains "/" s = false →
  PyStr.split "/" (s +:+ String "/" rest) = s :: PyStr.split "/" rest.
Proof.
  induction s as [|c s IH]; [done|].
  intros [Hc Hs]%contains_slash_cons.
  change (String c s +:+ String "/" rest) with (String c (s +:+ String "/" rest)).
  by rewrite (split_cons_other c _ Hc), (IH Hs).
Qed.

(** X22. For every job identifier that is non-empty and holds no slash,
    a GET of [/api/progress/<id>] reaches the progress view and a GET of
    [/api/download/<id>/file] the file view, while a POST to either is
    answered 405. *)
Theorem job_routes (id : string) :
  id ≠ "" → PyStr.contains "/" id = false →
  dispatch GET ("/api/progress/" +:+ id) = Call v_get_progress
  ∧ dispatch GET ("/api/download/" +:+ id +:+ "/file") = Call v_download_file
  ∧ dispatch POST ("/api/progress/" +:+ id) = MethodNotAllowed405
  ∧ dispatch POST ("/api/download/" +:+ id +:+ "/file") = MethodNotAllowed405.
Proof.
  intros Hne Hslash.
  assert (Hempty : String.eqb id "" = false) by by apply String.eqb_neq.
  assert (Hp : path_segments ("/api/progress/" +:+ id) = ["api"; "progress"; id]).
  { unfold path_segments.
    change ("/api/progress/" +:+ id)
      with ("" +:+ String "/" ("api" +:+ String "/" ("progress" +:+ String "/" id))).
    by rewrite !split_app_sep, (split_no_sep id Hslash) by reflexivity. }
  assert (Hd : path_segments ("/api/download/" +:+ id +:+ "/file")
               = ["api"; "download"; id; "file"]).
  { unfold path_segments.
    change ("/api/download/" +:+ id +:+ "/file")
      with ("" +:+ String "/" ("api" +:+ String "/" ("download" +:+ String "/"
              (id +:+ String "/" "file")))).
    rewrite (split_app_sep "") by reflexivity.
    rewrite (split_app_sep "api") by reflexivity.
    rewrite (split_app_sep "download") by reflexivity.
    by rewrite (split_app_sep id "file" Hslash). }
  unfold dispatch. rewrite Hp, Hd. simpl. rewrite Hempty. simpl. done.
Qed.

Lemma job_routes_witness :
  dispatch GET "/api/progress/3f2b-77" = Call v_get_progress
  ∧ dispatch GET "/api/download/3f2b-77/file" = Call v_download_file.
Proof.
  destruct (job_routes "3f2b-77") as (Hp & Hd & _);
    [discriminate | reflexivity |].
  split; [exact Hp | exact Hd].
Defined.

(** X23. Without a custom format every quality but ['audio'], the unknown
    ones included, gets a chain whose last alternative is the
    unconditional [best], is merged into mp4 and has no post-processor;
    ['audio'] ends in [best[height<=480]] and is the one quality with the
    audio post-processor. A custom format is passed as it is, whatever the
    quality, and the retry keeps the format of the first attempt. *)
Theorem quality_chains (quality custom_format : pyval) (id : string) :
  let opts := build_opts quality id custom_format in
  (truthy custom_format = true →
   o_format opts = custom_format ∧ o_postprocessors opts = None)
  ∧ (truthy custom_format = false →
     ∃ fmt, o_format opts = PStr fmt
       ∧ (quality ≠ PStr "audio" →
          List.last (format_chain fmt) "" = "best"
          ∧ o_postprocessors opts = None)
       ∧ (quality = PStr "audio" →
          List.last (format_chain fmt) "" = "best[height<=480]"
          ∧ o_postprocessors opts = Some ("FFmpegExtractAudio", "mp3", "320")))
  ∧ o_merge_output_format opts = Some "mp4"
  ∧ o_format (retry_opts opts) = o_format opts.
Proof.
  intros opts. subst opts. unfold build_opts.
  destruct (truthy custom_format); simpl.
  { split; [done|]. split; [done|]. by split. }
  split; [done|].
  repeat case_decide; simpl; subst;
    (split; [intros _; eexists; split; [reflexivity|]; split; intros Hq; try done;
             split; reflexivity
            | by split]).
Qed.

(** *** The start-up block *)

(** X24. The start-up block deletes the temp files in listing order up
    to the first one whose deletion fails and leaves that file and all
    later ones, deletable or not; the temp directory ends up empty
    exactly when no deletion fails. *)
Theorem startup_cleanup_stops (unlink_raises : string → bool) (temp : list string) :
  (∃ deleted,
     temp = deleted ++ startup_cleanup unlink_raises temp
     ∧ Forall (fun n => unlink_raises n = false) deleted)
  ∧ match startup_cleanup unlink_raises temp with
    | first :: _ => unlink_raises first = true
    | [] => True
    end
  ∧ (startup_cleanup unlink_raises temp = []
     ↔ Forall (fun n => unlink_raises n = false) temp).
Proof.
  induction temp as [|n temp (IH1 & IH2 & IH3)]; simpl.
  - split; [by exists []|]. split; [done|]. split; [by constructor|done].
  - destruct (unlink_raises n) eqn:Hn.
    + split; [by exists []|]. split; [done|].
      split; [done|]. intros Hall. inversion Hall; congruence.
    + destruct IH1 as (deleted & Heq & Hdel).
      split; [exists (n :: deleted); split; [simpl; by f_equal|by constructor]|].
      split; [done|]. rewrite IH3. split; [by constructor|]. by inversion 1.
Qed.
